(** * calorie_bot_v2: the daily-entry ledger and the nightly recap

    A shallow embedding of [calorie_bot_v2.py].  The SQLite file is an
    explicit store value, the system clock is a sequence of readings
    consumed one per call of [now_sgt()] or [utcnow()], Telegram API
    calls are recorded in an outbox and may raise, and Python exceptions
    are an error result.

    Modelling conventions:
    - A Python [int] is a [Z].  An SQLite INTEGER is a [Z] of the signed
      64-bit range [int64].  The integers that are read from text (the
      kcal of /add, the row id of a callback) are unbounded, and binding
      one outside the range raises [OverflowError] before anything is
      written.  The chat and user ids are the ones that Telegram
      delivers, which lie within the range (the Bot API bounds them by
      52 bits), and the AUTOINCREMENT counter is taken to stay below
      its last value.
    - A Python [str] and an SQLite TEXT value are the [string] of their
      UTF-8 bytes, the encoding in which SQLite stores and compares
      them; TEXT comparison is SQLite's BINARY collation (byte order, a
      proper prefix is smaller).  A space never occurs inside the
      encoding of another code point, so splitting at a space is the
      same on bytes and on code points.
    - A [datetime] is the record of its calendar fields.  The zone
      Asia/Singapore is the fixed offset +08:00 (its rule since 1982).
    - The table [entries] is the list of its rows in rowid order, which
      is the order of a full table scan.
    - The SQLite file is taken to be available: no statement fails for
      want of it. *)

From Stdlib Require Import ZArith Lia Bool List String Ascii.
From Stdlib Require Import Sorting.Sorted Permutation.
Import ListNotations.

Local Open Scope string_scope.
Local Open Scope Z_scope.

(* ================================================================== *)
(** * Calendar dates and datetimes *)
(* ================================================================== *)

Module Calendar.

Record date := mkDate { d_year : Z; d_month : Z; d_day : Z }.

Record datetime := mkDT {
  year : Z; month : Z; day : Z;
  hour : Z; minute : Z; second : Z; microsecond : Z
}.

Definition is_leap (y : Z) : bool :=
  ((y mod 4 =? 0) && negb (y mod 100 =? 0)) || (y mod 400 =? 0).

Definition days_in_month (y m : Z) : Z :=
  if m =? 2 then (if is_leap y then 29 else 28)
  else if (m =? 4) || (m =? 6) || (m =? 9) || (m =? 11) then 30
  else 31.

(** [date + timedelta(days=1)] *)
Definition next_day (d : date) : date :=
  if d_day d <? days_in_month (d_year d) (d_month d)
  then mkDate (d_year d) (d_month d) (d_day d + 1)
  else if d_month d <? 12
       then mkDate (d_year d) (d_month d + 1) 1
       else mkDate (d_year d + 1) 1 1.

(** [date - timedelta(days=1)] *)
Definition prev_day (d : date) : date :=
  if 1 <? d_day d
  then mkDate (d_year d) (d_month d) (d_day d - 1)
  else if 1 <? d_month d
       then mkDate (d_year d) (d_month d - 1)
                   (days_in_month (d_year d) (d_month d - 1))
       else mkDate (d_year d - 1) 12 31.

(** [datetime.date()] *)
Definition date_of (t : datetime) : date :=
  mkDate (year t) (month t) (day t).

(** [datetime.combine(d, time(h, mi, s, us))] *)
Definition combine (d : date) (h mi s us : Z) : datetime :=
  mkDT (d_year d) (d_month d) (d_day d) h mi s us.

(** [t + timedelta(days=1)] *)
Definition plus_one_day (t : datetime) : datetime :=
  combine (next_day (date_of t))
          (hour t) (minute t) (second t) (microsecond t).

(** The offset of [ZoneInfo("Asia/Singapore")], in hours. *)
Definition TZ_OFFSET : Z := 8.

(** A UTC wall time seen in the zone [TZ]: [astimezone(TZ)]. *)
Definition sgt_of_utc (u : datetime) : datetime :=
  if hour u + TZ_OFFSET <? 24
  then combine (date_of u) (hour u + TZ_OFFSET)
               (minute u) (second u) (microsecond u)
  else combine (next_day (date_of u)) (hour u + TZ_OFFSET - 24)
               (minute u) (second u) (microsecond u).

(** A wall time of the zone [TZ] seen in UTC: [astimezone(dt.UTC)]. *)
Definition utc_of_sgt (t : datetime) : datetime :=
  if TZ_OFFSET <=? hour t
  then combine (date_of t) (hour t - TZ_OFFSET)
               (minute t) (second t) (microsecond t)
  else combine (prev_day (date_of t)) (hour t + 24 - TZ_OFFSET)
               (minute t) (second t) (microsecond t).

Definition valid_date (d : date) : Prop :=
  1 <= d_year d <= 9999 /\ 1 <= d_month d <= 12 /\
  1 <= d_day d <= days_in_month (d_year d) (d_month d).

(** The values a Python [datetime] can hold. *)
Definition valid_dt (t : datetime) : Prop :=
  valid_date (date_of t) /\
  0 <= hour t < 24 /\ 0 <= minute t < 60 /\ 0 <= second t < 60 /\
  0 <= microsecond t < 1000000.

(** Python compares naive datetimes field by field; for UTC wall times
    this is the order of the instants. *)
Definition lex (c : comparison) (k : comparison) : comparison :=
  match c with Eq => k | _ => c end.

Definition seconds_compare (a b : datetime) : comparison :=
  lex (year a ?= year b)
  (lex (month a ?= month b)
  (lex (day a ?= day b)
  (lex (hour a ?= hour b)
  (lex (minute a ?= minute b)
       (second a ?= second b))))).

Definition dt_compare (a b : datetime) : comparison :=
  lex (seconds_compare a b) (microsecond a ?= microsecond b).

Definition dt_lt (a b : datetime) : Prop := dt_compare a b = Lt.
Definition dt_le (a b : datetime) : Prop := dt_compare a b <> Gt.

End Calendar.
Import Calendar.

(* ================================================================== *)
(** * ISO-8601 text of a datetime, and TEXT comparison *)
(* ================================================================== *)

Module Iso.

Definition digit (n : Z) : ascii :=
  ascii_of_nat (48 + Z.to_nat (n mod 10)).

(** [k] decimal digits, zero padded: the ["%0kd"] of [isoformat]. *)
Fixpoint pad (k : nat) (n : Z) : string :=
  match k with
  | O => ""
  | S k' => pad k' (n / 10) ++ String (digit n) ""
  end.

(** The 19 characters [YYYY-MM-DDTHH:MM:SS]. *)
Definition iso_seconds (t : datetime) : string :=
  pad 4 (year t) ++ "-" ++ pad 2 (month t) ++ "-" ++ pad 2 (day t) ++ "T" ++
  pad 2 (hour t) ++ ":" ++ pad 2 (minute t) ++ ":" ++ pad 2 (second t).

(** [datetime.isoformat()] of a naive datetime: the fraction is printed
    only when the microsecond field is not zero. *)
Definition isoformat (t : datetime) : string :=
  iso_seconds t ++
  (if microsecond t =? 0 then "" else "." ++ pad 6 (microsecond t)).

(** [datetime.isoformat()] of an aware datetime whose zone is [dt.UTC]:
    the offset is appended. *)
Definition isoformat_utc (t : datetime) : string :=
  isoformat t ++ "+00:00".

(** SQLite's BINARY collation on TEXT: bytes are compared in order and a
    proper prefix is smaller. *)
Fixpoint text_compare (a b : string) : comparison :=
  match a, b with
  | EmptyString, EmptyString => Eq
  | EmptyString, String _ _ => Lt
  | String _ _, EmptyString => Gt
  | String x a', String y b' =>
      match Nat.compare (nat_of_ascii x) (nat_of_ascii y) with
      | Eq => text_compare a' b'
      | c => c
      end
  end.

Definition text_le (a b : string) : bool :=
  match text_compare a b with Gt => false | _ => true end.

(** [x BETWEEN lo AND hi] on TEXT values: [x >= lo AND x <= hi]. *)
Definition sql_between (x lo hi : string) : bool :=
  text_le lo x && text_le x hi.

End Iso.
Import Iso.

(* ================================================================== *)
(** * Python string helpers used by the command parser *)
(* ================================================================== *)

Module PyStr.

(** The code points that [str.strip] removes are those of [str.isspace]:
    U+0009..U+000D, U+001C..U+0020, U+0085, U+00A0, U+1680,
    U+2000..U+200A, U+2028, U+2029, U+202F, U+205F and U+3000.  The
    three predicates recognise their UTF-8 encodings of one, two and
    three bytes. *)
Definition is_space (c : ascii) : bool :=
  let n := nat_of_ascii c in
  ((9 <=? n) && (n <=? 13) || (28 <=? n) && (n <=? 32))%nat.

Definition is_space2 (a b : ascii) : bool :=
  let x := nat_of_ascii a in
  let y := nat_of_ascii b in
  ((x =? 194) && ((y =? 133) || (y =? 160)))%nat.

Definition is_space3 (a b c : ascii) : bool :=
  let x := nat_of_ascii a in
  let y := nat_of_ascii b in
  let z := nat_of_ascii c in
  ((x =? 225) && (y =? 154) && (z =? 128)
   || (x =? 226) && (y =? 128) &&
      ((128 <=? z) && (z <=? 138) || (z =? 168) || (z =? 169) || (z =? 175))
   || (x =? 226) && (y =? 129) && (z =? 159)
   || (x =? 227) && (y =? 128) && (z =? 128))%nat.

(** What follows the whitespace code point at the head of [s]; [None]
    when [s] does not begin with one. *)
Definition space_head (s : string) : option string :=
  match s with
  | EmptyString => None
  | String a r =>
      if is_space a then Some r
      else match r with
           | EmptyString => None
           | String b r2 =>
               if is_space2 a b then Some r2
               else match r2 with
                    | EmptyString => None
                    | String c r3 => if is_space3 a b c then Some r3 else None
                    end
           end
  end.

(** [s] is one whitespace code point. *)
Definition one_space (s : string) : bool :=
  match space_head s with
  | Some EmptyString => true
  | _ => false
  end.

Definition is_blank (c : ascii) : bool := Ascii.eqb c " "%char.

(** [s.partition(" ")[2]]: what follows the first space, or the empty
    string when there is none. *)
Fixpoint after_first_space (s : string) : string :=
  match s with
  | EmptyString => ""
  | String c r => if is_blank c then r else after_first_space r
  end.

(** [s.rsplit(" ", 1)] when it yields two parts; [None] when [s] has no
    space and the result has one part only. *)
Fixpoint rsplit1 (s : string) : option (string * string) :=
  match s with
  | EmptyString => None
  | String c r =>
      match rsplit1 r with
      | Some (a, b) => Some (String c a, b)
      | None => if is_blank c then Some ("", r) else None
      end
  end.

(** [s.split(":", 1)[1]]: what follows the first colon; [None] when
    there is none, and index 1 is out of range. *)
Fixpoint after_first_colon (s : string) : option string :=
  match s with
  | EmptyString => None
  | String c r => if Ascii.eqb c ":"%char then Some r else after_first_colon r
  end.

(** [s.lstrip()]: the leading whitespace code points are dropped. *)
Fixpoint lstrip (s : string) : string :=
  match s with
  | EmptyString => ""
  | String a r =>
      if is_space a then lstrip r
      else match r with
           | EmptyString => s
           | String b r2 =>
               if is_space2 a b then lstrip r2
               else match r2 with
                    | EmptyString => s
                    | String c r3 => if is_space3 a b c then lstrip r3 else s
                    end
           end
  end.

(** [s.rstrip()]: the trailing whitespace code points are dropped. *)
Fixpoint rstrip (s : string) : string :=
  match s with
  | EmptyString => ""
  | String c r =>
      let r' := rstrip r in
      if one_space (String c r') then "" else String c r'
  end.

(** [s.strip()] *)
Definition strip (s : string) : string := rstrip (lstrip s).

End PyStr.
Import PyStr.

(* ================================================================== *)
(** * The store, the platform and the effect monad *)
(* ================================================================== *)

Local Open Scope list_scope.

(** A row of the table [entries]. *)
Record Entry := mkEntry {
  id : Z; user_id : Z; chat_id : Z;
  ts_utc : string; food : string; kcal : Z
}.

(** An inbound Telegram message, as far as the handlers read it. *)
Record Message := mkMessage {
  msg_chat : Z; msg_from : Z; msg_text : string
}.

Inductive recap_line :=
| RecapHeader (d : date)
| RecapUser (uid subtotal : Z)
| RecapItem (item_food : string) (item_kcal : Z).

(** What the bot hands to the Telegram API.  The rendering of each text
    belongs to the transport; the constructors keep the data it is
    rendered from. *)
Inductive payload :=
| Scold
| Usage
| Added (uid : Z) (item_food : string) (item_kcal : Z)
| NothingToRemove
| RemoveKeyboard (buttons : list (Z * string * Z))
| NoEntriesYet
| SummaryText (d : date) (total : Z) (items : list (string * Z))
| Cleared
| EntryRemoved
| Deleted
| Recap (lines : list recap_line).

(** The exceptions that reach a handler or the job.  The [ValueError] of
    the parser of /add is caught where it is raised (see [parse_add]);
    [cb_delete] catches none. *)
Inductive exn :=
| ApiException       (* a Telegram API call failed *)
| OverflowError      (* an int parameter does not fit an SQLite INTEGER *)
| ValueError         (* int() refused the text *)
| IndexError.        (* list index out of range *)

Inductive result (A : Type) :=
| Ok (a : A)
| Raise (e : exn).
Arguments Ok {A} a.
Arguments Raise {A} e.

(** The SQLite file ([entries] with its AUTOINCREMENT counter, [chats])
    together with the observable history of the process. *)
Record World := mkWorld {
  entries : list Entry;      (* rows of [entries], in rowid order *)
  seq : Z;                   (* sqlite_sequence: largest id ever given *)
  chats : list Z;            (* rows of [chats], in rowid order *)
  tick : nat;                (* number of clock readings taken so far *)
  outbox : list (Z * payload);   (* Telegram API calls attempted *)
  warnings : list (Z * exn)      (* logging.warning calls of the job *)
}.

Definition set_entries (es : list Entry) (i : Z) (w : World) : World :=
  mkWorld es i (chats w) (tick w) (outbox w) (warnings w).

Definition set_chats (cs : list Z) (w : World) : World :=
  mkWorld (entries w) (seq w) cs (tick w) (outbox w) (warnings w).

Definition set_tick (n : nat) (w : World) : World :=
  mkWorld (entries w) (seq w) (chats w) n (outbox w) (warnings w).

Definition push_call (c : Z * payload) (w : World) : World :=
  mkWorld (entries w) (seq w) (chats w) (tick w)
          (outbox w ++ [c]) (warnings w).

Definition push_warning (x : Z * exn) (w : World) : World :=
  mkWorld (entries w) (seq w) (chats w) (tick w)
          (outbox w) (warnings w ++ [x]).

(** What the process does not control. *)
Class Platform := {
  clock : nat -> datetime;        (* UTC wall time of the n-th reading *)
  py_int : string -> option Z;    (* int(s); None is ValueError *)
  api_ok : nat -> bool            (* does the n-th API call succeed *)
}.

Definition M (A : Type) : Type := World -> result A * World.

Definition ret {A} (a : A) : M A := fun w => (Ok a, w).

Definition raise {A} (e : exn) : M A := fun w => (Raise e, w).

Definition bind {A B} (m : M A) (k : A -> M B) : M B :=
  fun w => match m w with
           | (Ok a, w') => k a w'
           | (Raise e, w') => (Raise e, w')
           end.

(** [try: m  except Exception as err: h err] *)
Definition try_except {A} (m : M A) (h : exn -> M A) : M A :=
  fun w => match m w with
           | (Ok a, w') => (Ok a, w')
           | (Raise e, w') => h e w'
           end.

Notation "x <- m ;; k" := (bind m (fun x => k))
  (at level 61, m at next level, right associativity).
Notation "m ;;; k" := (bind m (fun _ => k))
  (at level 61, right associativity).

(** [for x in xs: body x] *)
Fixpoint for_each {A} (xs : list A) (body : A -> M unit) : M unit :=
  match xs with
  | [] => ret tt
  | x :: xs' => body x ;;; for_each xs' body
  end.

(** The range of an SQLite INTEGER. *)
Definition int64 (z : Z) : bool := (- 2 ^ 63 <=? z) && (z <? 2 ^ 63).

(** Binding an [int] that was read from text to a parameter of a
    statement: outside the range the driver raises. *)
Definition bind_int (z : Z) : M unit :=
  if int64 z then ret tt else raise OverflowError.

Definition get_entries : M (list Entry) := fun w => (Ok (entries w), w).

Definition put_entries (es : list Entry) : M unit :=
  fun w => (Ok tt, set_entries es (seq w) w).

Section Effects.
Context `{Platform}.

Definition read_clock : M datetime :=
  fun w => (Ok (clock (tick w)), set_tick (S (tick w)) w).

(** A Telegram API call: the attempt is recorded, then it either
    returns or raises. *)
Definition api_call (cid : Z) (p : payload) : M unit :=
  fun w =>
    if api_ok (List.length (outbox w))
    then (Ok tt, push_call (cid, p) w)
    else (Raise ApiException, push_call (cid, p) w).

Definition log_warning (cid : Z) (e : exn) : M unit :=
  fun w => (Ok tt, push_warning (cid, e) w).

End Effects.

(* ================================================================== *)
(** * Settings *)
(* ================================================================== *)

Definition QUIET_START : Z := 22.   (* 22:00 inclusive *)
Definition QUIET_END : Z := 0.      (* 00:00 exclusive *)
Definition SUMMARY_HOUR : Z := 22.

(* ================================================================== *)
(** * DB helpers *)
(* ================================================================== *)

(** [INSERT OR IGNORE INTO chats]: [chat_id] is the INTEGER PRIMARY KEY,
    so the rows are kept in ascending [chat_id] and a known chat is
    left alone. *)
Fixpoint insert_chat (cid : Z) (cs : list Z) : list Z :=
  match cs with
  | [] => [cid]
  | c :: r =>
      if cid =? c then cs
      else if cid <? c then cid :: cs
      else c :: insert_chat cid r
  end.

Definition max_id (es : list Entry) : Z :=
  fold_right (fun e m => Z.max (id e) m) 0 es.

(** The rowid AUTOINCREMENT gives to the next row: one more than the
    largest rowid that ever existed in the table. *)
Definition fresh_id (w : World) : Z :=
  Z.max (seq w) (max_id (entries w)) + 1.

(** The row-matching predicate of [todays_entries] and [reset_today]:
    [user_id=? AND chat_id=? AND ts_utc BETWEEN ? AND ?]. *)
Definition user_row_matches (uid cid : Z) (r : string * string)
    (e : Entry) : bool :=
  (user_id e =? uid) && (chat_id e =? cid) &&
  sql_between (ts_utc e) (fst r) (snd r).

(** The row-matching predicate of [day_details]:
    [chat_id=? AND ts_utc BETWEEN ? AND ?]. *)
Definition chat_row_matches (cid : Z) (r : string * string)
    (e : Entry) : bool :=
  (chat_id e =? cid) && sql_between (ts_utc e) (fst r) (snd r).

(** The columns [id, food, kcal] and [user_id, food, kcal] of a row. *)
Definition entry_row (e : Entry) : Z * string * Z := (id e, food e, kcal e).
Definition chat_row (e : Entry) : Z * string * Z :=
  (user_id e, food e, kcal e).

(** [ORDER BY id] *)
Fixpoint insert_by_id (x : Z * string * Z) (l : list (Z * string * Z))
    : list (Z * string * Z) :=
  match l with
  | [] => [x]
  | y :: r =>
      if fst (fst x) <? fst (fst y) then x :: l
      else y :: insert_by_id x r
  end.

Fixpoint order_by_id (l : list (Z * string * Z)) : list (Z * string * Z) :=
  match l with
  | [] => []
  | x :: r => insert_by_id x (order_by_id r)
  end.

(** A Python [dict] from user id to a list of items; the pairs are kept
    in the order in which the keys were first inserted. *)
Definition dict := list (Z * list (string * Z)).

(** [out.setdefault(uid, []).append(item)] *)
Fixpoint setdefault_append (out : dict) (uid : Z) (item : string * Z)
    : dict :=
  match out with
  | [] => [(uid, [item])]
  | (k, v) :: r =>
      if k =? uid then (k, v ++ [item]) :: r
      else (k, v) :: setdefault_append r uid item
  end.

(** [out[uid]], [None] when the key is absent. *)
Fixpoint dict_get (out : dict) (uid : Z) : option (list (string * Z)) :=
  match out with
  | [] => None
  | (k, v) :: r => if k =? uid then Some v else dict_get r uid
  end.

(** The body of the loop of [day_details] for one row
    [(uid, food, kcal)]. *)
Definition group_step (out : dict) (row : Z * string * Z) : dict :=
  setdefault_append out (fst (fst row)) (snd (fst row), snd row).

Definition group_rows (rows : list (Z * string * Z)) : dict :=
  fold_left group_step rows [].

Section DbHelpers.
Context `{Platform}.

Definition register_chat (cid : Z) : M unit :=
  fun w => (Ok tt, set_chats (insert_chat cid (chats w)) w).

Definition now_sgt : M datetime :=
  u <- read_clock ;; ret (sgt_of_utc u).

Definition utcnow : M datetime := read_clock.

Definition _today_range : M (string * string) :=
  now <- now_sgt ;;
  let start := utc_of_sgt (combine (date_of now) 0 0 0 0) in
  let end_ := plus_one_day start in
  ret (isoformat_utc start, isoformat_utc end_).

Definition add_entry (uid cid : Z) (food : string) (kcal : Z) : M unit :=
  t <- utcnow ;;
  bind_int kcal ;;;
  fun w =>
    let i := fresh_id w in
    (Ok tt, set_entries
              (entries w ++ [mkEntry i uid cid (isoformat t) food kcal]) i w).

Definition todays_entries (uid cid : Z) : M (list (Z * string * Z)) :=
  r <- _today_range ;;
  es <- get_entries ;;
  ret (order_by_id
         (map entry_row (filter (user_row_matches uid cid r) es))).

Definition delete_entry (row_id : Z) : M unit :=
  bind_int row_id ;;;
  es <- get_entries ;;
  put_entries (filter (fun e => negb (id e =? row_id)) es).

Definition reset_today (uid cid : Z) : M unit :=
  r <- _today_range ;;
  es <- get_entries ;;
  put_entries (filter (fun e => negb (user_row_matches uid cid r e)) es).

Definition day_details (cid : Z) : M dict :=
  r <- _today_range ;;
  es <- get_entries ;;
  let rows := map chat_row (filter (chat_row_matches cid r) es) in
  ret (group_rows rows).

Definition all_chat_ids : M (list Z) := fun w => (Ok (chats w), w).

End DbHelpers.

(* ================================================================== *)
(** * Utilities, commands and the scheduler *)
(* ================================================================== *)

(** [ts.hour >= QUIET_START or ts.hour < QUIET_END], for any setting of
    the two thresholds. *)
Definition in_quiet_window_with (quiet_start quiet_end : Z)
    (ts : datetime) : bool :=
  (quiet_start <=? hour ts) || (hour ts <? quiet_end).

Definition in_quiet_window (ts : datetime) : bool :=
  in_quiet_window_with QUIET_START QUIET_END ts.

Definition sum_kcal (items : list (string * Z)) : Z :=
  fold_right (fun it acc => snd it + acc) 0 items.

Definition recap_lines (today : date) (det : dict) : list recap_line :=
  RecapHeader today ::
  flat_map (fun ui => RecapUser (fst ui) (sum_kcal (snd ui)) ::
                      map (fun it => RecapItem (fst it) (snd it)) (snd ui))
           det.

Section Bot.
Context `{Platform}.

Definition reply_to (msg : Message) (p : payload) : M unit :=
  api_call (msg_chat msg) p.

(** The [try] block of [cmd_add]: [rsplit] into two parts and [int];
    [None] is the [ValueError] that the handler catches. *)
Definition parse_add (arg_line : string) : option (string * Z) :=
  match rsplit1 arg_line with
  | None => None
  | Some (food_part, kcal_str) =>
      match py_int kcal_str with
      | None => None
      | Some kcal => Some (food_part, kcal)
      end
  end.

Definition cmd_add (msg : Message) : M unit :=
  register_chat (msg_chat msg) ;;;
  now <- now_sgt ;;
  if in_quiet_window now then reply_to msg Scold
  else
    let arg_line := strip (after_first_space (msg_text msg)) in
    match parse_add arg_line with
    | None => reply_to msg Usage
    | Some (food_part, kcal) =>
        let food := strip food_part in
        add_entry (msg_from msg) (msg_chat msg) food kcal ;;;
        reply_to msg (Added (msg_from msg) food kcal)
    end.

(** [int(q.data.split(":", 1)[1])] *)
Definition callback_row_id (data : string) : M Z :=
  match after_first_colon data with
  | None => raise IndexError
  | Some arg =>
      match py_int arg with
      | None => raise ValueError
      | Some row_id => ret row_id
      end
  end.

(** [cb_delete]: [data] is the callback data, which the dispatcher has
    seen to start with ["del:"]; the query is answered in chat [cid]. *)
Definition cb_delete (cid : Z) (data : string) : M unit :=
  row_id <- callback_row_id data ;;
  delete_entry row_id ;;;
  api_call cid EntryRemoved ;;;
  api_call cid Deleted.

Definition cmd_remove (msg : Message) : M unit :=
  register_chat (msg_chat msg) ;;;
  rows <- todays_entries (msg_from msg) (msg_chat msg) ;;
  match rows with
  | [] => reply_to msg NothingToRemove
  | _ :: _ => reply_to msg (RemoveKeyboard rows)
  end.

Definition cmd_summary (msg : Message) : M unit :=
  register_chat (msg_chat msg) ;;;
  rows <- todays_entries (msg_from msg) (msg_chat msg) ;;
  match rows with
  | [] => reply_to msg NoEntriesYet
  | _ :: _ =>
      let total := fold_right (fun r acc => snd r + acc) 0 rows in
      now <- now_sgt ;;
      reply_to msg (SummaryText (date_of now) total
                                (map (fun r => (snd (fst r), snd r)) rows))
  end.

Definition cmd_reset (msg : Message) : M unit :=
  register_chat (msg_chat msg) ;;;
  reset_today (msg_from msg) (msg_chat msg) ;;;
  reply_to msg Cleared.

Definition send_chat_recap (cid : Z) : M unit :=
  det <- day_details cid ;;
  match det with
  | [] => ret tt
  | _ :: _ =>
      now <- now_sgt ;;
      api_call cid (Recap (recap_lines (date_of now) det))
  end.

(** The body of the loop of [nightly_job] for one chat. *)
Definition recap_attempt (cid : Z) : M unit :=
  try_except (send_chat_recap cid) (fun err => log_warning cid err).

Definition nightly_job : M unit :=
  cids <- all_chat_ids ;;
  for_each cids recap_attempt.

(** Passive registration: any message registers its chat. *)
Definition seen_any (msg : Message) : M unit :=
  register_chat (msg_chat msg).

End Bot.

(* ================================================================== *)
(** * The day window *)
(* ================================================================== *)

(** The instants [start] and [end] that [_today_range] prints: midnight
    of the current date of the zone, seen in UTC, and 24 hours later. *)
Definition day_window (now : datetime) : datetime * datetime :=
  let start := utc_of_sgt (combine (date_of now) 0 0 0 0) in
  (start, plus_one_day start).

(** Membership of an instant in the half-open interval [[start, end)]. *)
Definition in_day_window (win : datetime * datetime) (t : datetime) : Prop :=
  dt_le (fst win) t /\ dt_lt t (snd win).

(** The two texts that [_today_range] returns for a window. *)
Definition range_texts (win : datetime * datetime) : string * string :=
  (isoformat_utc (fst win), isoformat_utc (snd win)).

(** The window of a query that reads the clock in world [w]. *)
Definition today `{Platform} (w : World) : datetime * datetime :=
  day_window (sgt_of_utc (clock (tick w))).

(** The dict that [day_details] returns when it reads the clock in
    world [w]. *)
Definition breakdown `{Platform} (cid : Z) (w : World) : dict :=
  group_rows
    (map chat_row
         (filter (chat_row_matches cid (range_texts (today w)))
                 (entries w))).

Definition is_nil {A} (l : list A) : bool :=
  match l with [] => true | _ :: _ => false end.

(** Row [e] was stamped by [add_entry] at the UTC reading [t]. *)
Definition stamped_at (e : Entry) (t : datetime) : Prop :=
  valid_dt t /\ ts_utc e = isoformat t.

(** The table holds its rows in strictly ascending order of [id]: the
    order of insertion is the order of the ids. *)
Definition rows_in_id_order (w : World) : Prop :=
  StronglySorted (fun a b => id a < id b) (entries w).

(** The rows are in ascending order of [id]. *)
Definition ascending_ids (rows : list (Z * string * Z)) : Prop :=
  Sorted (fun a b => fst (fst a) <= fst (fst b)) rows.

(** The [(food, kcal)] pairs of the rows of user [uid], in row order. *)
Definition items_of (uid : Z) (rows : list (Z * string * Z))
    : list (string * Z) :=
  map (fun r => (snd (fst r), snd r))
      (filter (fun r => fst (fst r) =? uid) rows).

(** A list as the value of a key: an absent key stands for no items. *)
Definition nonempty_value (l : list (string * Z))
    : option (list (string * Z)) :=
  match l with [] => None | _ :: _ => Some l end.

(** The field ranges that [isoformat] prints in fixed width. *)
Definition printable (t : datetime) : Prop :=
  0 <= year t < 10000 /\ 0 <= month t < 100 /\ 0 <= day t < 100 /\
  0 <= hour t < 100 /\ 0 <= minute t < 100 /\ 0 <= second t < 100 /\
  0 <= microsecond t < 1000000.

(** A reading of the system clock: a datetime of the years in which the
    zone has had the offset +08:00 throughout. *)
Definition valid_reading (u : datetime) : Prop :=
  valid_dt u /\ 1983 <= year u <= 9998.

(* ================================================================== *)
(** * Platforms and worlds of the examples *)
(* ================================================================== *)

Definition is_digit (c : ascii) : bool :=
  let n := nat_of_ascii c in ((48 <=? n) && (n <=? 57))%nat.

(** The digits of a decimal literal: at least one digit, and a single
    underscore may stand between two digits. *)
Fixpoint digits_value (s : string) (acc : Z) (after_digit : bool)
    : option Z :=
  match s with
  | EmptyString => if after_digit then Some acc else None
  | String c r =>
      if is_digit c
      then digits_value r (10 * acc + Z.of_nat (nat_of_ascii c - 48)) true
      else if Ascii.eqb c "_"%char && after_digit
           then digits_value r acc false
           else None
  end.

(** [int(s)] on a text of ASCII characters: surrounding whitespace is
    dropped, a sign may lead, the digits are decimal; anything else is a
    [ValueError].  [int] also reads the decimal digits of other scripts;
    this function refuses them, and the examples use ASCII digits. *)
Definition parse_decimal (s : string) : option Z :=
  match strip s with
  | EmptyString => None
  | String c r =>
      if Ascii.eqb c "-"%char then option_map Z.opp (digits_value r 0 false)
      else if Ascii.eqb c "+"%char then digits_value r 0 false
      else digits_value (String c r) 0 false
  end.

(** 2024-01-02 00:00:00.000000 in the zone, as the UTC reading. *)
Definition midnight_utc : datetime := mkDT 2024 1 1 16 0 0 0.
(** 2024-01-02 12:00:00 in the zone. *)
Definition noon_utc : datetime := mkDT 2024 1 2 4 0 0 0.
(** 2024-01-02 08:00:00 in the zone. *)
Definition early_utc : datetime := mkDT 2024 1 2 0 0 0 0.
(** 2024-01-02 10:00:00 in the zone. *)
Definition morning_utc : datetime := mkDT 2024 1 2 2 0 0 0.
(** 2024-01-02 22:00:00 in the zone, the hour of the recap. *)
Definition recap_utc : datetime := mkDT 2024 1 2 14 0 0 0.
(** 2024-01-02 22:30:00 in the zone. *)
Definition late_utc : datetime := mkDT 2024 1 2 14 30 0 0.
(** 2024-01-03 00:00:00.000000 in the zone. *)
Definition next_midnight_utc : datetime := mkDT 2024 1 2 16 0 0 0.

(** A clock that shows the same reading every time. *)
Definition frozen_platform (u : datetime) : Platform :=
  {| clock := fun _ => u; py_int := parse_decimal; api_ok := fun _ => true |}.

(** A clock whose first two readings are midnight (its granularity is
    coarser than the time [cmd_add] takes) and that shows the morning
    afterwards. *)
Definition coarse_platform : Platform :=
  {| clock := fun n => if (n <? 2)%nat then midnight_utc else morning_utc;
     py_int := parse_decimal;
     api_ok := fun _ => true |}.

(** A platform on which every Telegram API call raises. *)
Definition offline_platform (u : datetime) : Platform :=
  {| clock := fun _ => u; py_int := parse_decimal; api_ok := fun _ => false |}.

Definition empty_world : World := mkWorld [] 0 [] 0 [] [].

(** Chats 7, 8 and 9 are registered; 7 and 9 have a row of the morning
    of 2024-01-02, 8 has none. *)
Definition three_chat_world : World :=
  mkWorld [ mkEntry 1 1 7 (isoformat morning_utc) "tea" 5;
            mkEntry 2 4 9 (isoformat morning_utc) "soup" 120 ]
          2 [7; 8; 9] 0 [] [].

Definition fish_message : Message :=
  mkMessage 7 1 "/add fish and chips 500".

(** U+00A0 NO-BREAK SPACE, as its two bytes. *)
Definition nbsp : string :=
  String (ascii_of_nat 194) (String (ascii_of_nat 160) "").

(** "/add tea 5" followed by a no-break space. *)
Definition tea_message : Message :=
  mkMessage 7 1 ("/add tea 5" ++ nbsp)%string.

(** An /add whose food is a no-break space. *)
Definition blank_food_message : Message :=
  mkMessage 7 1 ("/add " ++ nbsp ++ " 5")%string.

(** An /add whose kcal is 2^63. *)
Definition huge_message : Message :=
  mkMessage 7 1 "/add tea 9223372036854775808".

(** Two rows of user 1 in chat 7: stamped at the midnight that opens
    2024-01-02 in the zone and at 08:00 of that day. *)
Definition boundary_world : World :=
  mkWorld [ mkEntry 1 1 7 (isoformat midnight_utc) "rice" 300;
            mkEntry 2 1 7 (isoformat early_utc) "tea" 5 ]
          2 [7] 0 [] [].

(** One row, stamped at the midnight that opens the day. *)
Definition midnight_world : World :=
  mkWorld [ mkEntry 1 1 7 (isoformat midnight_utc) "rice" 300 ]
          1 [7] 0 [] [].

(* ================================================================== *)
(** * Notions for the properties of the handlers *)
(* ================================================================== *)

(** The text has a space character. *)
Fixpoint has_blank (s : string) : bool :=
  match s with
  | EmptyString => false
  | String c r => is_blank c || has_blank r
  end.

(** The text begins with a whitespace code point. *)
Definition starts_with_space (s : string) : bool :=
  match space_head s with
  | Some _ => true
  | None => false
  end.

(** The text ends with a whitespace code point: one of its suffixes is
    one. *)
Fixpoint ends_with_space (s : string) : bool :=
  match s with
  | EmptyString => false
  | String _ r => one_space s || ends_with_space r
  end.

(** No whitespace code point at either end. *)
Definition trimmed (s : string) : Prop :=
  starts_with_space s = false /\ ends_with_space s = false.

(** No row has an id above the AUTOINCREMENT counter. *)
Definition ids_bounded (w : World) : Prop :=
  Forall (fun e => id e <= seq w) (entries w).

(** The shape of the SQLite file that the program keeps: ids ascending
    and below the counter, chat ids ascending. *)
Definition store_ok (w : World) : Prop :=
  rows_in_id_order w /\ ids_bounded w /\ StronglySorted Z.lt (chats w).

(** [sum(k for _, _, k in rows)] *)
Definition sum_rows (rows : list (Z * string * Z)) : Z :=
  fold_right (fun r acc => snd r + acc) 0 rows.

(** The sum of the subtotals of a breakdown. *)
Definition dict_total (d : dict) : Z :=
  fold_right (fun kv acc => sum_kcal (snd kv) + acc) 0 d.

(** The distinct elements of a list, each at its first occurrence. *)
Fixpoint first_occurrences (l : list Z) : list Z :=
  match l with
  | [] => []
  | x :: r => x :: filter (fun y => negb (y =? x)) (first_occurrences r)
  end.

(** The order of two dates. *)
Definition date_compare (a b : date) : comparison :=
  lex (d_year a ?= d_year b)
      (lex (d_month a ?= d_month b) (d_day a ?= d_day b)).

(** The UTC reading of 00:00:00.000000 of the zone. *)
Definition at_zone_midnight (u : datetime) : Prop :=
  hour u = 16 /\ minute u = 0 /\ second u = 0 /\ microsecond u = 0.

(** The rows that [todays_entries] returns when it reads the clock in
    world [w]. *)
Definition listing `{Platform} (uid cid : Z) (w : World)
    : list (Z * string * Z) :=
  order_by_id
    (map entry_row
         (filter (user_row_matches uid cid (range_texts (today w)))
                 (entries w))).

(** The row id that a callback with the data [data] hands to the DELETE
    statement: the integer after the first colon, when [int] reads one
    and it is an SQLite INTEGER. *)
Definition callback_target `{Platform} (data : string) : option Z :=
  match after_first_colon data with
  | None => None
  | Some arg =>
      match py_int arg with
      | None => None
      | Some row_id => if int64 row_id then Some row_id else None
      end
  end.

(** The argument line of an /add message. *)
Definition arg_line_of (msg : Message) : string :=
  strip (after_first_space (msg_text msg)).

(* ================================================================== *)
(** * TEXT comparison of ISO timestamps *)
(* ================================================================== *)

Section IsoOrder.

Lemma lex_eq_l k : lex Eq k = k.
Proof. reflexivity. Qed.

Lemma string_length_app (a b : string) :
  String.length (a ++ b)%string = (String.length a + String.length b)%nat.
Proof. induction a as [|c a IH]; simpl; [reflexivity | now rewrite IH]. Qed.

Lemma string_app_nil_r (a : string) : (a ++ "")%string = a.
Proof. induction a as [|c a IH]; simpl; [reflexivity | now rewrite IH]. Qed.

Lemma string_app_assoc (a b c : string) :
  ((a ++ b) ++ c)%string = (a ++ (b ++ c))%string.
Proof. induction a as [|x a IH]; simpl; [reflexivity | now rewrite IH]. Qed.

Lemma text_compare_refl a : text_compare a a = Eq.
Proof.
  induction a as [|c a IH]; simpl; [reflexivity|].
  now rewrite Nat.compare_refl.
Qed.

(** Two texts with prefixes of the same length are ordered by the
    prefixes first. *)
Lemma text_compare_app a b x y :
  String.length a = String.length b ->
  text_compare (a ++ x) (b ++ y) = lex (text_compare a b) (text_compare x y).
Proof.
  revert b; induction a as [|c a IH]; intros [|d b] Hlen; simpl in *;
    try discriminate; [reflexivity|].
  destruct (Nat.compare (nat_of_ascii c) (nat_of_ascii d)); try reflexivity.
  apply IH. now injection Hlen.
Qed.

Lemma pad_length k : forall n, String.length (pad k n) = k.
Proof.
  induction k as [|k IH]; intros n; simpl; [reflexivity|].
  rewrite string_length_app, IH. simpl. lia.
Qed.

Lemma digit_code n : nat_of_ascii (digit n) = (48 + Z.to_nat (n mod 10))%nat.
Proof.
  unfold digit. apply nat_ascii_embedding.
  pose proof (Z.mod_pos_bound n 10 ltac:(lia)). lia.
Qed.

Lemma digit_compare a b :
  Nat.compare (nat_of_ascii (digit a)) (nat_of_ascii (digit b))
  = (a mod 10 ?= b mod 10).
Proof.
  rewrite !digit_code.
  pose proof (Z.mod_pos_bound a 10 ltac:(lia)).
  pose proof (Z.mod_pos_bound b 10 ltac:(lia)).
  destruct (Z.compare_spec (a mod 10) (b mod 10)) as [E|L|G].
  - rewrite E. apply Nat.compare_refl.
  - apply Nat.compare_lt_iff. lia.
  - apply Nat.compare_gt_iff. lia.
Qed.

Lemma compare_by_digits a b :
  lex (a / 10 ?= b / 10) (a mod 10 ?= b mod 10) = (a ?= b).
Proof.
  pose proof (Z.div_mod a 10 ltac:(lia)).
  pose proof (Z.div_mod b 10 ltac:(lia)).
  pose proof (Z.mod_pos_bound a 10 ltac:(lia)).
  pose proof (Z.mod_pos_bound b 10 ltac:(lia)).
  symmetry.
  destruct (Z.compare_spec (a / 10) (b / 10)) as [E|L|G]; simpl.
  - destruct (Z.compare_spec (a mod 10) (b mod 10)) as [E'|L'|G'].
    + apply Z.compare_eq_iff. lia.
    + apply Z.compare_lt_iff. lia.
    + apply Z.compare_gt_iff. lia.
  - apply Z.compare_lt_iff. lia.
  - apply Z.compare_gt_iff. lia.
Qed.

(** Zero-padded decimals of one width are ordered as the numbers. *)
Lemma pad_compare k : forall a b,
  0 <= a < 10 ^ Z.of_nat k -> 0 <= b < 10 ^ Z.of_nat k ->
  text_compare (pad k a) (pad k b) = (a ?= b).
Proof.
  induction k as [|k IH]; intros a b Ha Hb.
  - simpl in *. symmetry. apply Z.compare_eq_iff. lia.
  - rewrite Nat2Z.inj_succ, Z.pow_succ_r in Ha, Hb by lia.
    simpl pad. rewrite text_compare_app by now rewrite !pad_length.
    rewrite IH.
    + cbn [text_compare]. rewrite digit_compare.
      rewrite <- (compare_by_digits a b).
      destruct (a / 10 ?= b / 10); try reflexivity.
      cbn [lex]. now destruct (a mod 10 ?= b mod 10).
    + split; [apply Z.div_pos; lia | apply Z.div_lt_upper_bound; lia].
    + split; [apply Z.div_pos; lia | apply Z.div_lt_upper_bound; lia].
Qed.

Lemma pad_field_compare k a b x y :
  0 <= a < 10 ^ Z.of_nat k -> 0 <= b < 10 ^ Z.of_nat k ->
  text_compare (pad k a ++ x) (pad k b ++ y)
  = lex (a ?= b) (text_compare x y).
Proof.
  intros Ha Hb. rewrite text_compare_app by now rewrite !pad_length.
  now rewrite pad_compare.
Qed.

Lemma sep_compare c x y :
  text_compare (String c x) (String c y) = text_compare x y.
Proof. simpl. now rewrite Nat.compare_refl. Qed.

Lemma sep_field_compare c x y :
  text_compare (String c "" ++ x) (String c "" ++ y) = text_compare x y.
Proof. apply sep_compare. Qed.

(** One zero-padded field, and the separator after it when there is
    one. *)
Ltac compare_field :=
  rewrite pad_field_compare by (cbn; lia);
  try rewrite sep_field_compare.

(** The 19-character texts are ordered as the instants they print. *)
Lemma iso_seconds_compare a b x y :
  printable a -> printable b ->
  text_compare (iso_seconds a ++ x) (iso_seconds b ++ y)
  = lex (seconds_compare a b) (text_compare x y).
Proof.
  intros (Hy & Hm & Hd & Hh & Hi & Hs & _) (Hy' & Hm' & Hd' & Hh' & Hi' & Hs' & _).
  unfold iso_seconds, seconds_compare.
  rewrite !string_app_assoc.
  do 6 compare_field.
  destruct (year a ?= year b), (month a ?= month b), (day a ?= day b),
    (hour a ?= hour b), (minute a ?= minute b), (second a ?= second b);
    reflexivity.
Qed.

Lemma text_compare_offset_frac us :
  text_compare "+00:00" ("." ++ pad 6 us) = Lt.
Proof. reflexivity. Qed.

Lemma text_compare_frac_offset us :
  text_compare ("." ++ pad 6 us) "+00:00" = Gt.
Proof. reflexivity. Qed.

(** The lower bound of BETWEEN, on the texts the program produces, is
    strict on the instants: a stamp without fraction is a proper prefix
    of the bound printed for the same second. *)
Lemma lower_bound_text s t :
  printable s -> printable t -> microsecond s = 0 ->
  text_le (isoformat_utc s) (isoformat t) = true <-> dt_lt s t.
Proof.
  intros Hs Ht Hus.
  unfold text_le, isoformat_utc, isoformat, dt_lt, dt_compare.
  rewrite Hus. change (0 =? 0) with true. cbv iota.
  rewrite string_app_nil_r, iso_seconds_compare by assumption.
  destruct Ht as (_ & _ & _ & _ & _ & _ & Hut).
  destruct (seconds_compare s t); cbn [lex];
    try (split; [reflexivity + discriminate | reflexivity + discriminate]).
  destruct (Z.eqb_spec (microsecond t) 0) as [E|N].
  - rewrite E. cbn. split; discriminate.
  - rewrite text_compare_offset_frac.
    split; [intros _; apply Z.compare_lt_iff; lia | reflexivity].
Qed.

(** The upper bound of BETWEEN is inclusive on the instants. *)
Lemma upper_bound_text t e :
  printable t -> printable e -> microsecond e = 0 ->
  text_le (isoformat t) (isoformat_utc e) = true <-> dt_le t e.
Proof.
  intros Ht He Hue.
  unfold text_le, isoformat_utc, isoformat, dt_le, dt_compare.
  rewrite Hue. change (0 =? 0) with true. cbv iota.
  rewrite string_app_nil_r, iso_seconds_compare by assumption.
  destruct Ht as (_ & _ & _ & _ & _ & _ & Hut).
  destruct (seconds_compare t e); cbn [lex];
    try (split; [intros _; discriminate | reflexivity]);
    try (split; [discriminate | intros C; now elim C]).
  destruct (Z.eqb_spec (microsecond t) 0) as [E|N].
  - rewrite E. cbn. split; [intros _; discriminate | reflexivity].
  - rewrite text_compare_frac_offset.
    split; [discriminate|].
    intros C. exfalso. apply C. apply Z.compare_gt_iff. lia.
Qed.

(** What [ts_utc BETWEEN start AND end] selects: the instants of the
    interval [(start, end]]. *)
Lemma sql_between_window s e t :
  printable s -> printable e -> printable t ->
  microsecond s = 0 -> microsecond e = 0 ->
  sql_between (isoformat t) (isoformat_utc s) (isoformat_utc e) = true
  <-> dt_lt s t /\ dt_le t e.
Proof.
  intros Hs He Ht Hus Hue. unfold sql_between.
  rewrite andb_true_iff, lower_bound_text, upper_bound_text by assumption.
  reflexivity.
Qed.

(** Two stamps of the program are ordered, as texts, as their
    instants. *)
Lemma isoformat_compare a b :
  printable a -> printable b ->
  text_compare (isoformat a) (isoformat b) = dt_compare a b.
Proof.
  intros Ha Hb. unfold isoformat, dt_compare.
  rewrite iso_seconds_compare by assumption.
  destruct Ha as (_ & _ & _ & _ & _ & _ & Hua).
  destruct Hb as (_ & _ & _ & _ & _ & _ & Hub).
  f_equal.
  destruct (Z.eqb_spec (microsecond a) 0) as [Ea|Na],
           (Z.eqb_spec (microsecond b) 0) as [Eb|Nb].
  - rewrite Ea, Eb. reflexivity.
  - rewrite Ea. symmetry. apply Z.compare_lt_iff. lia.
  - rewrite Eb. symmetry. apply Z.compare_gt_iff. lia.
  - change ("." ++ ?z)%string with (String "." z). rewrite sep_compare.
    apply pad_compare; cbn; lia.
Qed.

Lemma lex_Eq c k : lex c k = Eq -> c = Eq /\ k = Eq.
Proof. destruct c; simpl; intros E; try discriminate; now split. Qed.

Lemma dt_compare_eq a b : dt_compare a b = Eq -> a = b.
Proof.
  unfold dt_compare, seconds_compare. intros E.
  repeat match goal with
         | E : lex _ _ = Eq |- _ => apply lex_Eq in E; destruct E
         end.
  repeat match goal with
         | E : (_ ?= _) = Eq |- _ => apply Z.compare_eq in E
         end.
  destruct a, b; simpl in *; congruence.
Qed.

(** A stamp is the text of one instant only. *)
Lemma isoformat_inj a b :
  printable a -> printable b -> isoformat a = isoformat b -> a = b.
Proof.
  intros Ha Hb E. apply dt_compare_eq.
  rewrite <- isoformat_compare by assumption.
  rewrite E. apply text_compare_refl.
Qed.

End IsoOrder.

(* ================================================================== *)
(** * The day window printed by [_today_range] *)
(* ================================================================== *)

Section DayWindow.

Lemma days_in_month_bounds y m : 28 <= days_in_month y m <= 31.
Proof.
  unfold days_in_month.
  destruct (m =? 2); [destruct (is_leap y); lia|].
  destruct ((m =? 4) || (m =? 6) || (m =? 9) || (m =? 11)); lia.
Qed.

Lemma next_prev_day d : valid_date d -> next_day (prev_day d) = d.
Proof.
  destruct d as [y m dd]. unfold valid_date, next_day, prev_day. simpl.
  intros (Hy & Hm & Hd).
  destruct (Z.ltb_spec 1 dd) as [D|D]; simpl.
  - destruct (Z.ltb_spec (dd - 1) (days_in_month y m)); [|lia].
    f_equal. lia.
  - assert (dd = 1) by lia. subst dd.
    destruct (Z.ltb_spec 1 m) as [Mo|Mo]; simpl.
    + rewrite Z.ltb_irrefl.
      destruct (Z.ltb_spec (m - 1) 12); [|lia].
      f_equal. lia.
    + assert (m = 1) by lia. subst m.
      cbn. f_equal. lia.
Qed.

Lemma valid_next_day d :
  valid_date d -> d_year d < 9999 -> valid_date (next_day d).
Proof.
  destruct d as [y m dd]. unfold valid_date, next_day. simpl.
  intros (Hy & Hm & Hd) Hy'.
  destruct (Z.ltb_spec dd (days_in_month y m)); simpl; [lia|].
  destruct (Z.ltb_spec m 12); simpl.
  - pose proof (days_in_month_bounds y (m + 1)). lia.
  - pose proof (days_in_month_bounds (y + 1) 1). lia.
Qed.

Lemma prev_day_ranges d :
  valid_date d ->
  0 <= d_year (prev_day d) < 10000 /\ 1 <= d_month (prev_day d) <= 12 /\
  1 <= d_day (prev_day d) <= 31.
Proof.
  destruct d as [y m dd]. unfold valid_date, prev_day. simpl.
  intros (Hy & Hm & Hd).
  pose proof (days_in_month_bounds y m).
  pose proof (days_in_month_bounds y (m - 1)).
  destruct (Z.ltb_spec 1 dd); simpl; [lia|].
  destruct (Z.ltb_spec 1 m); simpl; lia.
Qed.

(** The zone's date of a clock reading is a date again. *)
Lemma valid_sgt_date u :
  valid_reading u -> valid_date (date_of (sgt_of_utc u)).
Proof.
  intros ((Hd & _) & Hy). unfold sgt_of_utc.
  destruct (hour u + TZ_OFFSET <? 24).
  - exact Hd.
  - destruct (next_day (date_of u)) as [y m d] eqn:E.
    pose proof (valid_next_day (date_of u) Hd ltac:(simpl; lia)) as V.
    now rewrite E in V.
Qed.

Lemma date_of_combine d h mi s us : date_of (combine d h mi s us) = d.
Proof. now destruct d. Qed.

(** The window starts at 16:00 UTC of the day before the zone's date
    and ends at 16:00 UTC of that date. *)
Lemma day_window_shape now :
  valid_date (date_of now) ->
  day_window now = (combine (prev_day (date_of now)) 16 0 0 0,
                    combine (date_of now) 16 0 0 0).
Proof.
  intros V. unfold day_window, utc_of_sgt, plus_one_day.
  replace (TZ_OFFSET <=? hour (combine (date_of now) 0 0 0 0)) with false
    by reflexivity.
  rewrite !date_of_combine. rewrite next_prev_day by exact V.
  reflexivity.
Qed.

Lemma day_window_printable now :
  valid_date (date_of now) ->
  printable (fst (day_window now)) /\ printable (snd (day_window now)) /\
  microsecond (fst (day_window now)) = 0 /\
  microsecond (snd (day_window now)) = 0.
Proof.
  intros V. rewrite day_window_shape by exact V.
  pose proof (prev_day_ranges _ V) as R.
  pose proof (days_in_month_bounds (year now) (month now)).
  destruct V as (Hy & Hm & Hd). simpl in Hy, Hm, Hd.
  destruct (prev_day (date_of now)) as [y m d]. simpl in R.
  unfold printable; simpl. lia.
Qed.

Lemma valid_printable t : valid_dt t -> printable t.
Proof.
  intros ((Hy & Hm & Hd) & Hh & Hi & Hs & Hu). simpl in Hy, Hm, Hd.
  pose proof (days_in_month_bounds (year t) (month t)).
  unfold printable. lia.
Qed.

(** On the texts the program stores and prints, the row-matching
    BETWEEN is membership in [(start, end]] of the window. *)
Lemma between_today now t :
  valid_date (date_of now) -> printable t ->
  sql_between (isoformat t) (fst (range_texts (day_window now)))
              (snd (range_texts (day_window now))) = true
  <-> dt_lt (fst (day_window now)) t /\ dt_le t (snd (day_window now)).
Proof.
  intros V Ht. destruct (day_window_printable now V) as (Ps & Pe & Us & Ue).
  unfold range_texts. cbn [fst snd].
  now apply sql_between_window.
Qed.

End DayWindow.

(* ================================================================== *)
(** * ORDER BY id *)
(* ================================================================== *)

Section OrderBy.

Lemma insert_by_id_perm x l : Permutation (x :: l) (insert_by_id x l).
Proof.
  induction l as [|y r IH]; simpl; [apply Permutation_refl|].
  destruct (fst (fst x) <? fst (fst y)); [apply Permutation_refl|].
  eapply perm_trans; [apply perm_swap|]. now apply perm_skip.
Qed.

Lemma order_by_id_perm l : Permutation l (order_by_id l).
Proof.
  induction l as [|x r IH]; simpl; [constructor|].
  eapply perm_trans; [apply perm_skip, IH | apply insert_by_id_perm].
Qed.

Lemma insert_by_id_sorted x l :
  ascending_ids l -> ascending_ids (insert_by_id x l).
Proof.
  unfold ascending_ids. induction l as [|y r IH]; intros S; simpl.
  - repeat constructor.
  - destruct (Z.ltb_spec (fst (fst x)) (fst (fst y))) as [L|G].
    + constructor; [exact S | constructor; lia].
    + inversion S as [|? ? Sr Hd]; subst.
      constructor; [now apply IH|].
      destruct r as [|z r']; simpl.
      * constructor; lia.
      * inversion Hd; subst.
        destruct (fst (fst x) <? fst (fst z)); constructor; lia.
Qed.

Lemma order_by_id_sorted l : ascending_ids (order_by_id l).
Proof.
  induction l as [|x r IH]; simpl; [constructor|].
  now apply insert_by_id_sorted.
Qed.

Lemma In_order_by_id x l : In x (order_by_id l) <-> In x l.
Proof.
  split; apply Permutation_in;
    [apply Permutation_sym|]; apply order_by_id_perm.
Qed.

(** Sorting changes nothing when every row is below all the rows after
    it, as in a scan of the table in rowid order. *)
Lemma insert_by_id_below x l :
  Forall (fun y => fst (fst x) < fst (fst y)) l -> insert_by_id x l = x :: l.
Proof.
  intros F. destruct l as [|y r]; simpl; [reflexivity|].
  inversion F; subst.
  destruct (Z.ltb_spec (fst (fst x)) (fst (fst y))); [reflexivity | lia].
Qed.

Lemma order_by_id_fixed l :
  StronglySorted (fun a b => fst (fst a) < fst (fst b)) l ->
  order_by_id l = l.
Proof.
  induction 1 as [|x r S IH F]; simpl; [reflexivity|].
  rewrite IH. now apply insert_by_id_below.
Qed.

End OrderBy.

(* ================================================================== *)
(** * Grouping rows by user *)
(* ================================================================== *)

Section Grouping.

Lemma dict_get_setdefault out uid item k :
  dict_get (setdefault_append out uid item) k
  = if k =? uid
    then Some (match dict_get out uid with
               | Some v => v ++ [item]
               | None => [item]
               end)
    else dict_get out k.
Proof.
  induction out as [|[k' v] r IH]; simpl.
  - rewrite (Z.eqb_sym uid k). now destruct (k =? uid).
  - destruct (Z.eqb_spec k' uid) as [E|N]; simpl.
    + subst k'. rewrite (Z.eqb_sym uid k). now destruct (k =? uid).
    + rewrite IH. destruct (Z.eqb_spec k uid) as [E'|N'].
      * subst k. destruct (Z.eqb_spec k' uid); [contradiction | reflexivity].
      * reflexivity.
Qed.

Lemma keys_setdefault out uid item :
  map fst (setdefault_append out uid item)
  = if existsb (Z.eqb uid) (map fst out) then map fst out
    else map fst out ++ [uid].
Proof.
  induction out as [|[k v] r IH]; simpl; [reflexivity|].
  rewrite (Z.eqb_sym uid k).
  destruct (k =? uid); simpl; [reflexivity|].
  rewrite IH. now destruct (existsb (Z.eqb uid) (map fst r)).
Qed.

Lemma NoDup_keys_setdefault out uid item :
  NoDup (map fst out) -> NoDup (map fst (setdefault_append out uid item)).
Proof.
  intros N. rewrite keys_setdefault.
  destruct (existsb (Z.eqb uid) (map fst out)) eqn:E; [exact N|].
  apply NoDup_app; [exact N | repeat constructor; intros [] |].
  intros x Hx [Hu|[]]. subst x.
  assert (existsb (Z.eqb uid) (map fst out) = true) as C.
  { apply existsb_exists. exists uid. split; [exact Hx | apply Z.eqb_refl]. }
  congruence.
Qed.

Lemma values_setdefault out uid item :
  Forall (fun kv => snd kv <> []) out ->
  Forall (fun kv => snd kv <> []) (setdefault_append out uid item).
Proof.
  induction 1 as [|[k v] r Hv Hr IH]; simpl.
  - repeat constructor. discriminate.
  - destruct (k =? uid); constructor; simpl; auto.
    now destruct v.
Qed.

Lemma setdefault_not_nil out uid item : setdefault_append out uid item <> [].
Proof. destruct out as [|[k v] r]; simpl; [|destruct (k =? uid)]; discriminate. Qed.

Lemma group_fold_get rows : forall out k,
  dict_get (fold_left group_step rows out) k
  = match dict_get out k with
    | Some v => Some (v ++ items_of k rows)
    | None => nonempty_value (items_of k rows)
    end.
Proof.
  induction rows as [|[[u f] c] rows IH]; intros out k; simpl.
  - destruct (dict_get out k); [now rewrite app_nil_r | reflexivity].
  - rewrite IH. unfold group_step. cbn [fst snd].
    rewrite dict_get_setdefault. unfold items_of. cbn [filter fst snd].
    rewrite (Z.eqb_sym u k).
    destruct (Z.eqb_spec k u) as [E|N].
    + subst u. cbn [map fst snd].
      destruct (dict_get out k); [now rewrite <- app_assoc | reflexivity].
    + reflexivity.
Qed.

Lemma group_fold_keys rows : forall out,
  NoDup (map fst out) -> NoDup (map fst (fold_left group_step rows out)).
Proof.
  induction rows as [|r rows IH]; intros out N; simpl; [exact N|].
  apply IH. now apply NoDup_keys_setdefault.
Qed.

Lemma group_fold_values rows : forall out,
  Forall (fun kv => snd kv <> []) out ->
  Forall (fun kv => snd kv <> []) (fold_left group_step rows out).
Proof.
  induction rows as [|r rows IH]; intros out F; simpl; [exact F|].
  apply IH. now apply values_setdefault.
Qed.

Lemma group_fold_not_nil rows : forall out,
  out <> [] -> fold_left group_step rows out <> [].
Proof.
  induction rows as [|r rows IH]; intros out N; simpl; [exact N|].
  apply IH, setdefault_not_nil.
Qed.

(** The value of a key is the list of that user's items in row order;
    a user without rows is not a key. *)
Lemma group_rows_get rows k :
  dict_get (group_rows rows) k = nonempty_value (items_of k rows).
Proof. unfold group_rows. apply (group_fold_get rows [] k). Qed.

Lemma group_rows_keys rows : NoDup (map fst (group_rows rows)).
Proof. apply (group_fold_keys rows []). constructor. Qed.

Lemma group_rows_values rows :
  Forall (fun kv => snd kv <> []) (group_rows rows).
Proof. apply (group_fold_values rows []). constructor. Qed.

Lemma group_rows_nil rows : group_rows rows = [] <-> rows = [].
Proof.
  split; [|now intros ->].
  destruct rows as [|r rows]; [reflexivity|].
  intros E. exfalso. revert E. unfold group_rows. simpl.
  apply group_fold_not_nil, setdefault_not_nil.
Qed.

(** On a dict, the pairs are exactly what lookup returns. *)
Lemma dict_get_In (d : dict) k v :
  NoDup (map fst d) -> (In (k, v) d <-> dict_get d k = Some v).
Proof.
  induction d as [|[k' v'] r IH]; simpl; intros N.
  - split; [intros [] | discriminate].
  - inversion N as [|? ? Hnot Nr]; subst.
    destruct (Z.eqb_spec k' k) as [E|Ne].
    + subst k'. split.
      * intros [Heq|Hin]; [congruence|].
        exfalso. apply Hnot. change k with (fst (k, v)). now apply in_map.
      * intros Heq. left. congruence.
    + rewrite <- IH by exact Nr. split.
      * intros [Heq|Hin]; [congruence | exact Hin].
      * now right.
Qed.

End Grouping.

(* ================================================================== *)
(** * The quiet window *)
(* ================================================================== *)

Section QuietWindow.

Lemma in_quiet_window_with_iff qs qe ts :
  in_quiet_window_with qs qe ts = true <-> qs <= hour ts \/ hour ts < qe.
Proof.
  unfold in_quiet_window_with.
  rewrite orb_true_iff, Z.leb_le, Z.ltb_lt. reflexivity.
Qed.

(** C3. With QUIET_START = 22 and QUIET_END = 0 the quiet window is
    exactly the hours 22 and 23 of the zone: an instant is restricted
    if and only if its hour of day is 22 or 23; in particular hour 21
    and hour 0 are not restricted. *)
Theorem quiet_window_is_22_to_24 (ts : datetime) :
  valid_dt ts ->
  (in_quiet_window ts = true <-> hour ts = 22 \/ hour ts = 23).
Proof.
  intros (_ & Hh & _). unfold in_quiet_window.
  rewrite in_quiet_window_with_iff. unfold QUIET_START, QUIET_END. lia.
Qed.

(** The four hours that the specification names. *)
Lemma quiet_window_boundary_hours (ts : datetime) :
  (hour ts = 21 -> in_quiet_window ts = false) /\
  (hour ts = 22 -> in_quiet_window ts = true) /\
  (hour ts = 23 -> in_quiet_window ts = true) /\
  (hour ts = 0 -> in_quiet_window ts = false).
Proof.
  unfold in_quiet_window, in_quiet_window_with, QUIET_START, QUIET_END.
  repeat split; intros ->; reflexivity.
Qed.

Lemma valid_late_sgt : valid_dt (sgt_of_utc late_utc).
Proof. unfold valid_dt, valid_date; cbn; lia. Qed.

Lemma quiet_window_is_22_to_24_witness :
  valid_dt (sgt_of_utc late_utc) /\
  (in_quiet_window (sgt_of_utc late_utc) = true <->
   hour (sgt_of_utc late_utc) = 22 \/ hour (sgt_of_utc late_utc) = 23).
Proof.
  split; [exact valid_late_sgt|].
  apply (quiet_window_is_22_to_24 (sgt_of_utc late_utc)).
  exact valid_late_sgt.
Defined.

(** C4, as the code has it.  The predicate is one disjunction for every
    setting of the two thresholds: an instant is restricted exactly when
    its hour is at least QUIET_START or below QUIET_END.  For
    QUIET_END <= QUIET_START this is the window that wraps through
    midnight; for QUIET_END > QUIET_START the disjunction holds at every
    hour, so every instant is restricted. *)
Theorem quiet_window_single_disjunction (qs qe : Z) (ts : datetime) :
  (in_quiet_window_with qs qe ts = true <-> qs <= hour ts \/ hour ts < qe) /\
  (qs < qe -> in_quiet_window_with qs qe ts = true).
Proof.
  split; [apply in_quiet_window_with_iff|].
  intros L. apply in_quiet_window_with_iff. lia.
Qed.

Lemma quiet_window_single_disjunction_witness :
  9 < 17 /\ in_quiet_window_with 9 17 (sgt_of_utc late_utc) = true.
Proof.
  split; [lia|].
  apply (proj2 (quiet_window_single_disjunction 9 17 (sgt_of_utc late_utc))).
  lia.
Defined.

(** C4 as stated fails: with QUIET_START = 9 and QUIET_END = 17 the
    hour 3 lies outside [9, 17) and is restricted all the same. *)
Lemma quiet_window_no_plain_interval :
  9 < 17 /\
  hour (mkDT 2024 1 2 3 0 0 0) = 3 /\
  ~ (9 <= hour (mkDT 2024 1 2 3 0 0 0) < 17) /\
  in_quiet_window_with 9 17 (mkDT 2024 1 2 3 0 0 0) = true.
Proof. cbn. repeat split; try lia. Qed.

End QuietWindow.

(* ================================================================== *)
(** * Running the DB helpers *)
(* ================================================================== *)

Section Runs.
Context `{Platform}.

Lemma today_range_run w :
  _today_range w = (Ok (range_texts (today w)), set_tick (S (tick w)) w).
Proof. reflexivity. Qed.

Lemma todays_entries_run uid cid w :
  todays_entries uid cid w
  = (Ok (order_by_id
           (map entry_row
                (filter (user_row_matches uid cid (range_texts (today w)))
                        (entries w)))),
     set_tick (S (tick w)) w).
Proof. reflexivity. Qed.

(** The clock is read for the stamp before the statement binds its
    parameters: a kcal outside the range leaves the table alone. *)
Lemma add_entry_cases uid cid f k w :
  add_entry uid cid f k w
  = if int64 k
    then (Ok tt,
          set_entries
            (entries w ++ [mkEntry (fresh_id w) uid cid
                                   (isoformat (clock (tick w))) f k])
            (fresh_id w) (set_tick (S (tick w)) w))
    else (Raise OverflowError, set_tick (S (tick w)) w).
Proof.
  unfold add_entry, bind, utcnow, read_clock, bind_int.
  now destruct (int64 k).
Qed.

Lemma add_entry_run uid cid f k w :
  int64 k = true ->
  add_entry uid cid f k w
  = (Ok tt,
     set_entries
       (entries w ++ [mkEntry (fresh_id w) uid cid
                              (isoformat (clock (tick w))) f k])
       (fresh_id w) (set_tick (S (tick w)) w)).
Proof. intros R. now rewrite add_entry_cases, R. Qed.

Lemma delete_entry_cases row_id w :
  delete_entry row_id w
  = if int64 row_id
    then (Ok tt,
          set_entries (filter (fun e => negb (id e =? row_id)) (entries w))
                      (seq w) w)
    else (Raise OverflowError, w).
Proof. unfold delete_entry, bind, bind_int. now destruct (int64 row_id). Qed.

Lemma delete_entry_run row_id w :
  int64 row_id = true ->
  delete_entry row_id w
  = (Ok tt, set_entries (filter (fun e => negb (id e =? row_id)) (entries w))
                        (seq w) w).
Proof. intros R. now rewrite delete_entry_cases, R. Qed.

(** An integer that is no SQLite INTEGER is refused, and nothing is
    deleted. *)
Lemma delete_entry_refused row_id w :
  int64 row_id = false -> delete_entry row_id w = (Raise OverflowError, w).
Proof. intros R. now rewrite delete_entry_cases, R. Qed.

Lemma reset_today_run uid cid w :
  reset_today uid cid w
  = (Ok tt,
     set_entries
       (filter (fun e => negb (user_row_matches uid cid
                                 (range_texts (today w)) e))
               (entries w))
       (seq w) (set_tick (S (tick w)) w)).
Proof. reflexivity. Qed.

Lemma day_details_run cid w :
  day_details cid w = (Ok (breakdown cid w), set_tick (S (tick w)) w).
Proof. reflexivity. Qed.

End Runs.

(* ================================================================== *)
(** * Deleting by id *)
(* ================================================================== *)

Section Deletion.

Lemma filter_twice {A} (p : A -> bool) l :
  filter p (filter p l) = filter p l.
Proof.
  induction l as [|x l IH]; simpl; [reflexivity|].
  destruct (p x) eqn:E; simpl; [rewrite E; now f_equal | exact IH].
Qed.

Lemma filter_all {A} (p : A -> bool) l :
  (forall x, In x l -> p x = true) -> filter p l = l.
Proof.
  induction l as [|x l IH]; simpl; intros F; [reflexivity|].
  rewrite (F x (or_introl eq_refl)). f_equal. apply IH. auto.
Qed.

Lemma set_entries_same w : set_entries (entries w) (seq w) w = w.
Proof. now destruct w. Qed.

(** C9. The ids of the store are SQLite INTEGERs, the integers of the
    signed 64-bit range.  For every such id and every store,
    [delete_entry] does not fail; deleting the same id twice leaves the
    store as deleting it once; deleting an id that no row has leaves the
    store as it was. *)
Theorem delete_entry_idempotent (row_id : Z) (w : World) :
  int64 row_id = true ->
  (delete_entry row_id ;;; delete_entry row_id) w = delete_entry row_id w /\
  fst (delete_entry row_id w) = Ok tt /\
  (~ In row_id (map id (entries w)) -> delete_entry row_id w = (Ok tt, w)).
Proof.
  intros R. split; [|split].
  - unfold bind. rewrite !delete_entry_run by exact R.
    unfold set_entries. cbn. now rewrite filter_twice.
  - now rewrite delete_entry_run.
  - intros Habsent. rewrite delete_entry_run by exact R.
    rewrite filter_all; [now rewrite set_entries_same|].
    intros e He. apply negb_true_iff, Z.eqb_neq. intros E.
    apply Habsent. rewrite <- E. now apply in_map.
Qed.

(** The deleted id is gone and every other row stays, in order. *)
Lemma delete_entry_rows row_id w e :
  int64 row_id = true ->
  In e (entries (snd (delete_entry row_id w)))
  <-> In e (entries w) /\ id e <> row_id.
Proof.
  intros R. rewrite delete_entry_run by exact R. cbn.
  rewrite filter_In, negb_true_iff, Z.eqb_neq.
  reflexivity.
Qed.

End Deletion.

Lemma delete_entry_idempotent_witness :
  int64 9 = true /\
  ~ In 9 (map id (entries boundary_world)) /\
  delete_entry 9 boundary_world = (Ok tt, boundary_world).
Proof.
  assert (~ In 9 (map id (entries boundary_world))) as A
    by (cbn; intros [E|[E|[]]]; discriminate).
  split; [reflexivity|]. split; [exact A|].
  apply (delete_entry_idempotent 9 boundary_world); [reflexivity|].
  exact A.
Defined.

(** 2^63 is the id of no row: the DELETE statement refuses it, and the
    store is left as it was. *)
Example delete_beyond_64_bits :
  int64 (2 ^ 63) = false /\
  delete_entry (2 ^ 63) boundary_world = (Raise OverflowError, boundary_world).
Proof. split; reflexivity. Qed.

(* ================================================================== *)
(** * /add inside the quiet window *)
(* ================================================================== *)

Section QuietAdd.
Context `{Platform}.

(** Registering a chat that is already known changes nothing. *)
Lemma insert_chat_known cid cs :
  StronglySorted Z.lt cs -> In cid cs -> insert_chat cid cs = cs.
Proof.
  induction 1 as [|c r S IH F]; simpl; [intros []|].
  intros [E|I].
  - subst. now rewrite Z.eqb_refl.
  - destruct (Z.eqb_spec cid c); [reflexivity|].
    rewrite Forall_forall in F. specialize (F cid I).
    destruct (Z.ltb_spec cid c); [lia|]. f_equal. now apply IH.
Qed.

Lemma In_insert_chat cid cs x :
  In x (insert_chat cid cs) <-> x = cid \/ In x cs.
Proof.
  induction cs as [|c r IH]; simpl; [intuition|].
  destruct (Z.eqb_spec cid c).
  - subst. simpl. intuition.
  - destruct (cid <? c); simpl; [intuition|]. rewrite IH. intuition.
Qed.

(** C1, as the code has it.  An /add whose clock reading falls in the
    quiet window is answered with the rejection message and changes
    nothing in the entry store: no row is written, the id counter keeps
    its value, and listing today's entries of any user at any clock
    reading gives the same rows as before.  The one stored change is
    that the chat of the message is registered in [chats], which the
    handler does before it looks at the clock. *)
Theorem cmd_add_quiet_keeps_entries (msg : Message) (w : World) :
  in_quiet_window (sgt_of_utc (clock (tick w))) = true ->
  entries (snd (cmd_add msg w)) = entries w /\
  seq (snd (cmd_add msg w)) = seq w /\
  chats (snd (cmd_add msg w)) = insert_chat (msg_chat msg) (chats w) /\
  outbox (snd (cmd_add msg w)) = outbox w ++ [(msg_chat msg, Scold)] /\
  forall uid cid n,
    fst (todays_entries uid cid (set_tick n (snd (cmd_add msg w))))
    = fst (todays_entries uid cid (set_tick n w)).
Proof.
  intros Hq.
  assert (snd (cmd_add msg w)
          = push_call (msg_chat msg, Scold)
              (set_tick (S (tick w))
                 (set_chats (insert_chat (msg_chat msg) (chats w)) w))) as E.
  { unfold cmd_add, bind, register_chat, now_sgt, bind, read_clock, ret.
    cbn [tick set_chats]. rewrite Hq.
    unfold reply_to, api_call. now destruct (api_ok _). }
  rewrite E. repeat split.
Qed.

End QuietAdd.

Lemma cmd_add_quiet_keeps_entries_witness :
  in_quiet_window (sgt_of_utc late_utc) = true /\
  entries (snd (@cmd_add (frozen_platform late_utc) fish_message boundary_world))
  = entries boundary_world.
Proof.
  split; [reflexivity|].
  apply (@cmd_add_quiet_keeps_entries (frozen_platform late_utc)
           fish_message boundary_world).
  reflexivity.
Defined.

(** C1 as stated fails: the rejected /add of a chat that was not known
    writes that chat into the stored collection [chats]. *)
Lemma cmd_add_quiet_registers_chat :
  in_quiet_window (sgt_of_utc (@clock (frozen_platform late_utc)
                                      (tick empty_world))) = true /\
  chats (snd (@cmd_add (frozen_platform late_utc) fish_message empty_world))
  = [7] /\
  chats (snd (@cmd_add (frozen_platform late_utc) fish_message empty_world))
  <> chats empty_world.
Proof. repeat split. discriminate. Qed.

(* ================================================================== *)
(** * Row matching on stamped rows *)
(* ================================================================== *)

Section RowMatching.

Lemma user_row_matches_stamped uid cid now e t :
  valid_date (date_of now) -> stamped_at e t ->
  user_row_matches uid cid (range_texts (day_window now)) e = true
  <-> user_id e = uid /\ chat_id e = cid /\
      dt_lt (fst (day_window now)) t /\ dt_le t (snd (day_window now)).
Proof.
  intros V (Vt & Ets). unfold user_row_matches.
  rewrite !andb_true_iff, !Z.eqb_eq, Ets.
  rewrite between_today by (auto using valid_printable).
  tauto.
Qed.

Lemma chat_row_matches_stamped cid now e t :
  valid_date (date_of now) -> stamped_at e t ->
  chat_row_matches cid (range_texts (day_window now)) e = true
  <-> chat_id e = cid /\
      dt_lt (fst (day_window now)) t /\ dt_le t (snd (day_window now)).
Proof.
  intros V (Vt & Ets). unfold chat_row_matches.
  rewrite !andb_true_iff, !Z.eqb_eq, Ets.
  rewrite between_today by (auto using valid_printable).
  tauto.
Qed.

(** Away from the two bounds, the interval [(start, end]] that BETWEEN
    selects and the day window [[start, end)] have the same instants. *)
Lemma between_vs_day_window win t :
  dt_compare (fst win) t <> Eq -> dt_compare t (snd win) <> Eq ->
  (dt_lt (fst win) t /\ dt_le t (snd win) <-> in_day_window win t).
Proof.
  unfold in_day_window, dt_lt, dt_le. intros Hs He.
  destruct (dt_compare (fst win) t), (dt_compare t (snd win));
    split; intros (A & B); split; congruence.
Qed.

(** A row stamped away from midnight matches exactly when it belongs to
    the user and the chat and its instant is in the day window. *)
Lemma user_row_matches_interior uid cid now e t :
  valid_date (date_of now) -> stamped_at e t ->
  dt_compare (fst (day_window now)) t <> Eq ->
  dt_compare t (snd (day_window now)) <> Eq ->
  user_row_matches uid cid (range_texts (day_window now)) e = true
  <-> user_id e = uid /\ chat_id e = cid /\ in_day_window (day_window now) t.
Proof.
  intros V St Hs He.
  rewrite (user_row_matches_stamped uid cid now e t V St).
  rewrite (between_vs_day_window (day_window now) t Hs He). reflexivity.
Qed.

Lemma chat_row_matches_interior cid now e t :
  valid_date (date_of now) -> stamped_at e t ->
  dt_compare (fst (day_window now)) t <> Eq ->
  dt_compare t (snd (day_window now)) <> Eq ->
  chat_row_matches cid (range_texts (day_window now)) e = true
  <-> chat_id e = cid /\ in_day_window (day_window now) t.
Proof.
  intros V St Hs He.
  rewrite (chat_row_matches_stamped cid now e t V St).
  rewrite (between_vs_day_window (day_window now) t Hs He). reflexivity.
Qed.

End RowMatching.

(* ================================================================== *)
(** * Listing, adding, resetting *)
(* ================================================================== *)

Section Ledger.
Context `{Platform}.

(** [todays_entries] returns the matching rows, each once, in ascending
    order of id, and only reads the clock. *)
Lemma todays_entries_rows uid cid w :
  exists rows,
    todays_entries uid cid w = (Ok rows, set_tick (S (tick w)) w) /\
    ascending_ids rows /\
    Permutation rows
      (map entry_row
           (filter (user_row_matches uid cid (range_texts (today w)))
                   (entries w))).
Proof.
  eexists. rewrite todays_entries_run. split; [reflexivity|].
  split; [apply order_by_id_sorted|].
  apply Permutation_sym, order_by_id_perm.
Qed.

(** What holds of the C7 property: when the clock reading is valid and
    no row of the store is stamped exactly on a bound of the window,
    [todays_entries] returns exactly the rows of the user and chat
    whose instant is in [[start, end)], in ascending order of id. *)
Lemma todays_entries_interior uid cid w rows :
  valid_reading (clock (tick w)) ->
  (forall e, In e (entries w) ->
     exists t, stamped_at e t /\
               dt_compare (fst (today w)) t <> Eq /\
               dt_compare t (snd (today w)) <> Eq) ->
  fst (todays_entries uid cid w) = Ok rows ->
  ascending_ids rows /\
  forall x, In x rows <->
    exists e t, In e (entries w) /\ stamped_at e t /\ x = entry_row e /\
                user_id e = uid /\ chat_id e = cid /\
                in_day_window (today w) t.
Proof.
  intros V Hst. rewrite todays_entries_run. cbn [fst]. intros [= <-].
  split; [apply order_by_id_sorted|].
  intros x. rewrite In_order_by_id, in_map_iff. split.
  - intros (e & <- & He). apply filter_In in He as (He & Hm).
    destruct (Hst e He) as (t & St & Hs & Hend).
    apply (user_row_matches_interior uid cid _ e t
             (valid_sgt_date _ V) St Hs Hend) in Hm.
    exists e, t. split; [exact He|]. split; [exact St|].
    split; [reflexivity | exact Hm].
  - intros (e & t & He & St & -> & Hu & Hc & Hw).
    exists e. split; [reflexivity|]. apply filter_In. split; [exact He|].
    destruct (Hst e He) as (t' & St' & Hs & Hend).
    assert (t' = t) as ->.
    { destruct St as (Vt & Et), St' as (Vt' & Et').
      apply isoformat_inj; auto using valid_printable. congruence. }
    apply (user_row_matches_interior uid cid _ e t
             (valid_sgt_date _ V) St Hs Hend).
    auto.
Qed.

End Ledger.

Section AddThenList.
Context `{Platform}.

Lemma filter_permutation {A} (p : A -> bool) l l' :
  Permutation l l' -> Permutation (filter p l) (filter p l').
Proof.
  induction 1 as [|x l l' P IH|x y l|l l' l'' P1 IH1 P2 IH2]; simpl.
  - constructor.
  - destruct (p x); [now constructor | exact IH].
  - destruct (p x), (p y); try apply Permutation_refl. apply perm_swap.
  - eapply perm_trans; eassumption.
Qed.

Lemma max_id_ge es e : In e es -> id e <= max_id es.
Proof.
  induction es as [|x es IH]; simpl; [intros []|].
  intros [->|I]; [lia|]. specialize (IH I). lia.
Qed.

(** AUTOINCREMENT gives an id that no row of the table has. *)
Lemma fresh_id_above w e : In e (entries w) -> id e < fresh_id w.
Proof. intros I. apply max_id_ge in I. unfold fresh_id. lia. Qed.

Lemma no_row_with_id i (es : list Entry) :
  (forall e, In e es -> id e < i) ->
  filter (fun r => fst (fst r) =? i) (map entry_row es) = [].
Proof.
  induction es as [|e es IH]; simpl; intros F; [reflexivity|].
  destruct (Z.eqb_spec (id e) i) as [E|N].
  - specialize (F e (or_introl eq_refl)). lia.
  - apply IH. auto.
Qed.

(** What holds of the C2 property at the level of the store: a row
    stamped strictly after the start of the window of a later listing,
    and not after its end, is listed exactly once, with its food and
    kcal. *)
Lemma add_then_list uid cid f k w n :
  int64 k = true ->
  valid_dt (clock (tick w)) -> valid_reading (clock n) ->
  dt_lt (fst (day_window (sgt_of_utc (clock n)))) (clock (tick w)) ->
  dt_le (clock (tick w)) (snd (day_window (sgt_of_utc (clock n)))) ->
  exists rows,
    fst (todays_entries uid cid
           (set_tick n (snd (add_entry uid cid f k w)))) = Ok rows /\
    filter (fun r => fst (fst r) =? fresh_id w) rows = [(fresh_id w, f, k)].
Proof.
  intros Rk Vt Vn Hs He.
  rewrite add_entry_run by exact Rk.
  cbn [snd]. rewrite todays_entries_run. cbn [fst].
  eexists. split; [reflexivity|].
  apply Permutation_length_1_inv.
  eapply perm_trans;
    [|apply filter_permutation, order_by_id_perm].
  unfold today. cbn [tick set_tick set_entries entries].
  rewrite filter_app, map_app, filter_app.
  rewrite no_row_with_id.
  2:{ intros e I. apply filter_In in I as (I & _). now apply fresh_id_above. }
  cbn [app filter].
  set (e := mkEntry (fresh_id w) uid cid (isoformat (clock (tick w))) f k).
  assert (user_row_matches uid cid
            (range_texts (day_window (sgt_of_utc (clock n)))) e = true) as M.
  { apply (user_row_matches_stamped uid cid _ e (clock (tick w))).
    - now apply valid_sgt_date.
    - split; [exact Vt | reflexivity].
    - repeat split; assumption. }
  rewrite M. cbn [map filter entry_row e id food kcal fst snd].
  rewrite Z.eqb_refl. apply Permutation_refl.
Qed.

(** The same for the command: an /add outside the quiet window whose
    text parses stores the row with the stripped food and the parsed
    kcal, and a later listing whose window has the stamp strictly after
    its start, and not after its end, shows the row exactly once. *)
Lemma cmd_add_then_list msg w n food_part k :
  in_quiet_window (sgt_of_utc (clock (tick w))) = false ->
  parse_add (strip (after_first_space (msg_text msg))) = Some (food_part, k) ->
  int64 k = true ->
  valid_dt (clock (S (tick w))) -> valid_reading (clock n) ->
  dt_lt (fst (day_window (sgt_of_utc (clock n)))) (clock (S (tick w))) ->
  dt_le (clock (S (tick w))) (snd (day_window (sgt_of_utc (clock n)))) ->
  exists i rows,
    fst (todays_entries (msg_from msg) (msg_chat msg)
           (set_tick n (snd (cmd_add msg w)))) = Ok rows /\
    filter (fun r => fst (fst r) =? i) rows = [(i, strip food_part, k)].
Proof.
  intros Hq Hp Rk Vt Vn Hs He.
  set (w1 := set_tick (S (tick w))
               (set_chats (insert_chat (msg_chat msg) (chats w)) w)).
  assert (entries (snd (cmd_add msg w))
          = entries (snd (add_entry (msg_from msg) (msg_chat msg)
                                    (strip food_part) k w1))) as E.
  { unfold cmd_add, bind at 1 2, register_chat, now_sgt, bind, read_clock, ret.
    cbn [tick set_chats]. rewrite Hq, Hp.
    fold w1. rewrite add_entry_run by exact Rk. unfold reply_to, api_call.
    now destruct (api_ok _). }
  destruct (add_then_list (msg_from msg) (msg_chat msg) (strip food_part) k
              w1 n Rk Vt Vn Hs He) as (rows & R & F).
  exists (fresh_id w1), rows. split; [|exact F].
  rewrite todays_entries_run in *. cbn [fst] in *.
  unfold today in *. cbn [tick set_tick entries] in *.
  rewrite E. exact R.
Qed.

End AddThenList.

(* ================================================================== *)
(** * Insertion order is id order *)
(* ================================================================== *)

Section IdOrder.
Context `{Platform}.

Lemma StronglySorted_snoc {A} (R : A -> A -> Prop) l x :
  StronglySorted R l -> Forall (fun y => R y x) l ->
  StronglySorted R (l ++ [x]).
Proof.
  induction 1 as [|y l S IH F]; intros B; simpl.
  - repeat constructor.
  - inversion B; subst. constructor; [now apply IH|].
    apply Forall_app. split; [exact F | now constructor].
Qed.

Lemma StronglySorted_filter {A} (R : A -> A -> Prop) (p : A -> bool) l :
  StronglySorted R l -> StronglySorted R (filter p l).
Proof.
  induction 1 as [|y l S IH F]; simpl; [constructor|].
  destruct (p y); [|exact IH].
  constructor; [exact IH|].
  rewrite Forall_forall in *. intros z Hz.
  apply filter_In in Hz as (Hz & _). now apply F.
Qed.

(** [add_entry], [delete_entry] and [reset_today] keep the table in
    ascending order of id. *)
Lemma add_entry_id_order uid cid f k w :
  rows_in_id_order w -> rows_in_id_order (snd (add_entry uid cid f k w)).
Proof.
  unfold rows_in_id_order. intros S. rewrite add_entry_cases.
  destruct (int64 k); [|exact S]. cbn.
  apply StronglySorted_snoc; [exact S|].
  apply Forall_forall. intros e I. cbn. now apply fresh_id_above.
Qed.

Lemma delete_entry_id_order row_id w :
  rows_in_id_order w -> rows_in_id_order (snd (delete_entry row_id w)).
Proof.
  unfold rows_in_id_order. rewrite delete_entry_cases.
  destruct (int64 row_id); [|easy]. cbn.
  apply StronglySorted_filter.
Qed.

Lemma reset_today_id_order uid cid w :
  rows_in_id_order w -> rows_in_id_order (snd (reset_today uid cid w)).
Proof.
  unfold rows_in_id_order. rewrite reset_today_run. cbn.
  apply StronglySorted_filter.
Qed.

Lemma StronglySorted_map_entry_row es :
  StronglySorted (fun a b => id a < id b) es ->
  StronglySorted (fun a b => fst (fst a) < fst (fst b)) (map entry_row es).
Proof.
  induction 1 as [|e es S IH F]; simpl; constructor; [exact IH|].
  apply Forall_forall. intros r Hr. apply in_map_iff in Hr as (e' & <- & I).
  rewrite Forall_forall in F. now apply F.
Qed.

(** On such a table [ORDER BY id] is the order of the scan:
    [todays_entries] returns the matching rows as they stand in the
    table. *)
Lemma todays_entries_scan uid cid w :
  rows_in_id_order w ->
  fst (todays_entries uid cid w)
  = Ok (map entry_row
            (filter (user_row_matches uid cid (range_texts (today w)))
                    (entries w))).
Proof.
  intros S. rewrite todays_entries_run. cbn [fst]. f_equal.
  apply order_by_id_fixed, StronglySorted_map_entry_row.
  now apply StronglySorted_filter.
Qed.

End IdOrder.

(* ================================================================== *)
(** * Resetting today *)
(* ================================================================== *)

Section Reset.
Context `{Platform}.

(** [reset_today] removes the rows that match the predicate of
    [todays_entries] and no other: a row of another user or of another
    chat stays, the rows that stay keep their order, and the id counter
    and the chats are not touched. *)
Lemma reset_today_rows uid cid w :
  let w' := snd (reset_today uid cid w) in
  (forall e, In e (entries w') <->
     In e (entries w) /\
     user_row_matches uid cid (range_texts (today w)) e = false) /\
  (forall e, In e (entries w) ->
     user_id e <> uid \/ chat_id e <> cid -> In e (entries w')) /\
  seq w' = seq w /\ chats w' = chats w.
Proof.
  rewrite reset_today_run. cbn [snd set_entries entries seq chats set_tick].
  split; [|split; [|split; reflexivity]].
  - intros e. rewrite filter_In, negb_true_iff. reflexivity.
  - intros e I D. apply filter_In. split; [exact I|].
    apply negb_true_iff. unfold user_row_matches.
    destruct D as [D|D]; apply Z.eqb_neq in D; rewrite D;
      [reflexivity | now rewrite andb_false_r].
Qed.

(** What holds of the C6 property: when the clock reading is valid, a
    row that is stamped away from the two bounds of the window is
    removed exactly when it belongs to the user and the chat and its
    instant is in the day window. *)
Lemma reset_today_interior uid cid w e t :
  valid_reading (clock (tick w)) ->
  In e (entries w) -> stamped_at e t ->
  dt_compare (fst (today w)) t <> Eq ->
  dt_compare t (snd (today w)) <> Eq ->
  (~ In e (entries (snd (reset_today uid cid w)))
   <-> user_id e = uid /\ chat_id e = cid /\ in_day_window (today w) t).
Proof.
  intros V I St Hs He.
  destruct (reset_today_rows uid cid w) as (R & _). cbn zeta in R.
  rewrite R.
  rewrite <- (user_row_matches_interior uid cid _ e t
                (valid_sgt_date _ V) St Hs He).
  fold (today w).
  destruct (user_row_matches uid cid (range_texts (today w)) e); split.
  - reflexivity.
  - intros _ (_ & C). discriminate.
  - intros C. exfalso. apply C. now split.
  - discriminate.
Qed.

End Reset.

(* ================================================================== *)
(** * The chat breakdown *)
(* ================================================================== *)

Section Breakdown.
Context `{Platform}.

Lemma items_of_chat_rows uid (p : Entry -> bool) es :
  items_of uid (map chat_row (filter p es))
  = map (fun e => (food e, kcal e))
        (filter (fun e => (user_id e =? uid) && p e) es).
Proof.
  unfold items_of. induction es as [|e es IH]; simpl; [reflexivity|].
  destruct (p e); simpl.
  - destruct (user_id e =? uid); simpl; [f_equal|]; exact IH.
  - rewrite andb_false_r. exact IH.
Qed.

(** [day_details] returns a dict: its keys are distinct; the value of a
    user is the list of the [(food, kcal)] of the rows of that user
    that match the predicate of the query, in the order of the table,
    and a user without such a row is not a key; so no value is empty,
    and the dict is empty exactly when no row matches. *)
Lemma day_details_grouping cid w :
  exists det,
    day_details cid w = (Ok det, set_tick (S (tick w)) w) /\
    NoDup (map fst det) /\
    (forall uid,
       dict_get det uid
       = nonempty_value
           (map (fun e => (food e, kcal e))
                (filter (fun e => (user_id e =? uid) &&
                           chat_row_matches cid (range_texts (today w)) e)
                        (entries w)))) /\
    Forall (fun kv => snd kv <> []) det /\
    (det = [] <->
     forall e, In e (entries w) ->
       chat_row_matches cid (range_texts (today w)) e = false).
Proof.
  eexists. rewrite day_details_run. unfold breakdown.
  split; [reflexivity|].
  split; [apply group_rows_keys|].
  split; [intros uid; now rewrite group_rows_get, items_of_chat_rows|].
  split; [apply group_rows_values|].
  rewrite group_rows_nil. split.
  - intros E e I.
    destruct (chat_row_matches cid (range_texts (today w)) e) eqn:M;
      [|reflexivity].
    assert (In (chat_row e)
              (map chat_row
                 (filter (chat_row_matches cid (range_texts (today w)))
                         (entries w)))) as C
      by (apply in_map, filter_In; now split).
    rewrite E in C. destruct C.
  - intros F.
    destruct (filter (chat_row_matches cid (range_texts (today w)))
                     (entries w)) as [|e r] eqn:E; [reflexivity|].
    assert (In e (filter (chat_row_matches cid (range_texts (today w)))
                         (entries w))) as I by (rewrite E; now left).
    apply filter_In in I as (I & M). rewrite (F e I) in M. discriminate.
Qed.

End Breakdown.

(* ================================================================== *)
(** * The nightly job *)
(* ================================================================== *)

Section Scheduler.
Context `{Platform}.

Lemma recap_attempt_ok cid v : fst (recap_attempt cid v) = Ok tt.
Proof.
  unfold recap_attempt, try_except.
  destruct (send_chat_recap cid v) as [[[]|e] v']; reflexivity.
Qed.

Lemma for_each_attempts cids : forall w,
  for_each cids recap_attempt w
  = (Ok tt, fold_left (fun v cid => snd (recap_attempt cid v)) cids w).
Proof.
  induction cids as [|cid cids IH]; intros w; simpl; [reflexivity|].
  unfold bind. pose proof (recap_attempt_ok cid w) as R.
  destruct (recap_attempt cid w) as [r v]. simpl in *. subst r.
  apply IH.
Qed.

(** One pass of the loop body, by the breakdown of the chat. *)
Lemma recap_attempt_world cid v :
  snd (recap_attempt cid v)
  = match breakdown cid v with
    | [] => set_tick (S (tick v)) v
    | _ :: _ =>
        let call := (cid, Recap (recap_lines
                                   (date_of (sgt_of_utc (clock (S (tick v)))))
                                   (breakdown cid v))) in
        let v' := push_call call (set_tick (S (S (tick v))) v) in
        if api_ok (List.length (outbox v)) then v'
        else push_warning (cid, ApiException) v'
    end.
Proof.
  unfold recap_attempt, try_except, send_chat_recap, bind at 1.
  rewrite day_details_run.
  destruct (breakdown cid v) as [|kv det]; [reflexivity|].
  unfold bind, now_sgt, bind, read_clock, ret, api_call, log_warning.
  cbn [tick set_tick outbox entries seq chats warnings].
  now destruct (api_ok _).
Qed.

(** C5. The nightly job never raises and its final world is the result
    of running the loop body for every registered chat in turn, each in
    the world the chats before it left, whatever those did.  The loop
    body for a chat never raises; when the breakdown [det] of the chat
    is the empty mapping it calls no API and logs nothing; otherwise it
    makes exactly one API call, to that chat, carrying its recap,
    whether or not the call raises. *)
Theorem nightly_job_isolates_chats (w : World) :
  nightly_job w
  = (Ok tt, fold_left (fun v cid => snd (recap_attempt cid v)) (chats w) w) /\
  forall cid v det,
    fst (day_details cid v) = Ok det ->
    fst (recap_attempt cid v) = Ok tt /\
    (det = [] ->
       outbox (snd (recap_attempt cid v)) = outbox v /\
       warnings (snd (recap_attempt cid v)) = warnings v) /\
    (det <> [] ->
       exists lines,
         outbox (snd (recap_attempt cid v))
         = outbox v ++ [(cid, Recap lines)]).
Proof.
  split.
  - unfold nightly_job, bind, all_chat_ids. apply for_each_attempts.
  - intros cid v det. rewrite day_details_run. cbn [fst]. intros [= <-].
    split; [apply recap_attempt_ok|].
    rewrite recap_attempt_world.
    destruct (breakdown cid v) as [|kv det].
    + split; [intros _; now split | intros C; now elim C].
    + split; [discriminate|]. intros _. eexists.
      destruct (api_ok _); reflexivity.
Qed.

(** The stored rows, the id counter and the chats are the same after
    the job. *)
Lemma recap_attempt_store cid v :
  entries (snd (recap_attempt cid v)) = entries v /\
  seq (snd (recap_attempt cid v)) = seq v /\
  chats (snd (recap_attempt cid v)) = chats v.
Proof.
  rewrite recap_attempt_world.
  destruct (breakdown cid v); [now repeat split|].
  destruct (api_ok _); now repeat split.
Qed.

End Scheduler.

Lemma nightly_job_isolates_chats_witness :
  fst (@day_details (offline_platform late_utc) 7 three_chat_world)
  = Ok [(1, [("tea", 5)])] /\
  exists lines,
    outbox (snd (@recap_attempt (offline_platform late_utc) 7 three_chat_world))
    = outbox three_chat_world ++ [(7, Recap lines)].
Proof.
  split; [reflexivity|].
  apply (proj2 (@nightly_job_isolates_chats (offline_platform late_utc)
                  three_chat_world)
               7 three_chat_world [(1, [("tea", 5)])]).
  - reflexivity.
  - discriminate.
Defined.

(** The job on three chats when every API call raises: chat 8, without
    rows, is skipped; chats 7 and 9 are both attempted, and both
    failures are logged. *)
Example nightly_job_offline :
  let w := snd (@nightly_job (offline_platform late_utc) three_chat_world) in
  fst (@nightly_job (offline_platform late_utc) three_chat_world) = Ok tt /\
  map fst (outbox w) = [7; 9] /\
  warnings w = [(7, ApiException); (9, ApiException)].
Proof. repeat split. Qed.

(* ================================================================== *)
(** * A job that runs within one day *)
(* ================================================================== *)

Section JobWithinOneDay.
Context `{Platform}.
Variable w : World.
Hypothesis same_date : forall n,
  (tick w <= n)%nat ->
  date_of (sgt_of_utc (clock n)) = date_of (sgt_of_utc (clock (tick w))).

Lemma day_window_by_date a b :
  date_of a = date_of b -> day_window a = day_window b.
Proof. unfold day_window. now intros ->. Qed.

Lemma breakdown_later cid v :
  entries v = entries w -> (tick w <= tick v)%nat ->
  breakdown cid v = breakdown cid w.
Proof.
  intros E T. unfold breakdown, today.
  rewrite E, (day_window_by_date _ _ (same_date (tick v) T)). reflexivity.
Qed.

Lemma attempts_calls cids : forall v,
  entries v = entries w -> (tick w <= tick v)%nat ->
  exists calls,
    outbox (fold_left (fun v cid => snd (recap_attempt cid v)) cids v)
    = outbox v ++ calls /\
    map fst calls
    = filter (fun cid => negb (is_nil (breakdown cid w))) cids.
Proof.
  induction cids as [|cid cids IH]; intros v E T; simpl.
  - exists []. now rewrite app_nil_r.
  - rewrite recap_attempt_world, (breakdown_later cid v E T).
    destruct (breakdown cid w) as [|kv det] eqn:B; simpl.
    + destruct (IH (set_tick (S (tick v)) v)) as (calls & O & F);
        [exact E | simpl; lia |].
      exists calls. split; [exact O | exact F].
    + set (call := (cid, Recap _)).
      set (v1 := push_call call (set_tick (S (S (tick v))) v)).
      assert (exists v2, (if api_ok (List.length (outbox v)) then v1
                          else push_warning (cid, ApiException) v1) = v2 /\
                         entries v2 = entries w /\ (tick w <= tick v2)%nat /\
                         outbox v2 = outbox v ++ [call]) as (v2 & -> & E2 & T2 & O2).
      { eexists. split; [reflexivity|].
        destruct (api_ok _); simpl; repeat split; try exact E; lia. }
      destruct (IH v2 E2 T2) as (calls & O & F).
      exists (call :: calls). split.
      * rewrite O, O2, <- app_assoc. reflexivity.
      * simpl. now rewrite F.
Qed.

(** X23. When every clock reading of the job falls on one date of the zone,
    the API calls that the job adds go to exactly the registered chats
    whose breakdown is not empty, one call each, in the order of the
    registry, whichever of the calls raise. *)
Lemma nightly_job_calls :
  exists calls,
    outbox (snd (nightly_job w)) = outbox w ++ calls /\
    map fst calls
    = filter (fun cid => negb (is_nil (breakdown cid w))) (chats w).
Proof.
  unfold nightly_job, bind, all_chat_ids. rewrite for_each_attempts.
  cbn [snd]. apply attempts_calls; [reflexivity | lia].
Qed.

End JobWithinOneDay.

(* ================================================================== *)
(** * The scenarios of the specification *)
(* ================================================================== *)

(** /add fish and chips 500 at 12:00 of the zone, then the listing, the
    summary and the breakdown of the chat. *)
Example fish_and_chips_at_noon :
  let P := frozen_platform noon_utc in
  let w1 := snd (@cmd_add P fish_message empty_world) in
  fst (@todays_entries P 1 7 w1) = Ok [(1, "fish and chips", 500)] /\
  outbox (snd (@cmd_summary P fish_message w1))
  = [(7, Added 1 "fish and chips" 500);
     (7, SummaryText (mkDate 2024 1 2) 500 [("fish and chips", 500)])] /\
  fst (@day_details P 7 w1) = Ok [(1, [("fish and chips", 500)])].
Proof. repeat split. Qed.

(** The same /add at 22:30 of the zone is rejected. *)
Example fish_and_chips_at_night :
  let P := frozen_platform late_utc in
  snd (@cmd_add P fish_message empty_world)
  = mkWorld [] 0 [7] 1 [(7, Scold)] [].
Proof. reflexivity. Qed.

(** A text without a number gets the usage hint and writes no row. *)
Example add_without_kcal :
  let P := frozen_platform noon_utc in
  snd (@cmd_add P (mkMessage 7 1 "/add fish and chips") empty_world)
  = mkWorld [] 0 [7] 1 [(7, Usage)] [].
Proof. reflexivity. Qed.

(** Two users with one row each: a mapping of size 2. *)
Example breakdown_of_two_users :
  let P := frozen_platform noon_utc in
  let w1 := snd (@add_entry P 1 7 "toast" 200 empty_world) in
  let w2 := snd (@add_entry P 2 7 "eggs" 150 w1) in
  fst (@day_details P 7 w2) = Ok [(1, [("toast", 200)]); (2, [("eggs", 150)])].
Proof. reflexivity. Qed.

(* ================================================================== *)
(** * The midnight stamp *)
(* ================================================================== *)

(** A row stamped at 00:00:00.000000 of the zone has the text
    [2024-01-01T16:00:00], a proper prefix of the lower bound
    [2024-01-01T16:00:00+00:00] of that day and of the upper bound of
    the day before: BETWEEN puts the row in the day before.  The
    theorems of this section evaluate the program at such rows. *)

Lemma midnight_in_day_window :
  in_day_window (day_window (sgt_of_utc morning_utc)) midnight_utc /\
  in_day_window (day_window (sgt_of_utc morning_utc)) early_utc /\
  ~ in_day_window (day_window (sgt_of_utc morning_utc)) next_midnight_utc.
Proof.
  unfold in_day_window, dt_le, dt_lt. cbn.
  repeat split; try discriminate. intros (_ & C). discriminate.
Qed.

(** The texts at the two bounds: the stamp of the opening midnight is
    below the lower bound, the stamp of the closing midnight is not
    above the upper bound. *)
Lemma midnight_texts :
  isoformat midnight_utc = "2024-01-01T16:00:00" /\
  isoformat next_midnight_utc = "2024-01-02T16:00:00" /\
  range_texts (day_window (sgt_of_utc morning_utc))
  = ("2024-01-01T16:00:00+00:00", "2024-01-02T16:00:00+00:00") /\
  sql_between "2024-01-01T16:00:00"
              "2024-01-01T16:00:00+00:00" "2024-01-02T16:00:00+00:00" = false /\
  sql_between "2024-01-02T16:00:00"
              "2024-01-01T16:00:00+00:00" "2024-01-02T16:00:00+00:00" = true.
Proof. repeat split. Qed.

(** C2 at the failing input.  On a clock of coarse granularity both
    readings of an /add are 2024-01-02 00:00:00.000000 of the zone: the
    quiet window is over, the text parses, the row is written with
    food "fish and chips" and kcal 500 and confirmed, and its instant is
    in the day window [[start, end)] of the listing made at 10:00 of the
    same day; the listing returns no row. *)
Theorem add_at_midnight_is_not_listed :
  let P := coarse_platform in
  let w1 := snd (@cmd_add P fish_message empty_world) in
  in_quiet_window (sgt_of_utc (@clock P 0)) = false /\
  fst (@cmd_add P fish_message empty_world) = Ok tt /\
  entries w1 = [mkEntry 1 1 7 "2024-01-01T16:00:00" "fish and chips" 500] /\
  outbox w1 = [(7, Added 1 "fish and chips" 500)] /\
  stamped_at (mkEntry 1 1 7 "2024-01-01T16:00:00" "fish and chips" 500)
             midnight_utc /\
  in_day_window (@today P w1) midnight_utc /\
  fst (@todays_entries P 1 7 w1) = Ok [].
Proof.
  cbv zeta. repeat split; try (vm_compute; reflexivity);
    try (vm_compute; intros E; discriminate E).
Qed.

(** C7 at the failing input.  Of the two rows of the user and chat,
    row 1 is stamped at the start of the window, so both rows are in
    [[start, end)]; [todays_entries] returns row 2 only. *)
Theorem todays_entries_at_the_start :
  let P := frozen_platform morning_utc in
  stamped_at (mkEntry 1 1 7 (isoformat midnight_utc) "rice" 300) midnight_utc /\
  in_day_window (@today P boundary_world) midnight_utc /\
  in_day_window (@today P boundary_world) early_utc /\
  fst (@todays_entries P 1 7 boundary_world) = Ok [(2, "tea", 5)].
Proof.
  cbv zeta. split; [|split; [|split]].
  - split; [unfold valid_dt, valid_date; cbn; lia | reflexivity].
  - apply midnight_in_day_window.
  - apply midnight_in_day_window.
  - reflexivity.
Qed.

(** C6 at the failing input.  [reset_today] for the user and chat of
    the two rows, both in the day window, removes row 2 and leaves
    row 1. *)
Theorem reset_today_at_the_start :
  let P := frozen_platform morning_utc in
  in_day_window (@today P boundary_world) midnight_utc /\
  in_day_window (@today P boundary_world) early_utc /\
  entries (snd (@reset_today P 1 7 boundary_world))
  = [mkEntry 1 1 7 (isoformat midnight_utc) "rice" 300].
Proof.
  cbv zeta. split; [|split].
  - apply midnight_in_day_window.
  - apply midnight_in_day_window.
  - reflexivity.
Qed.

(** C8 at the failing input.  The breakdown of the chat of the two
    rows, both in the day window, gives the user the item of row 2
    only. *)
Theorem day_details_at_the_start :
  let P := frozen_platform morning_utc in
  in_day_window (@today P boundary_world) midnight_utc /\
  in_day_window (@today P boundary_world) early_utc /\
  fst (@day_details P 7 boundary_world) = Ok [(1, [("tea", 5)])].
Proof.
  cbv zeta. split; [|split].
  - apply midnight_in_day_window.
  - apply midnight_in_day_window.
  - reflexivity.
Qed.

(** C10 at the failing input.  The chat has one row, stamped at the
    start of the day window and so inside it; at the hour of the recap
    the breakdown is the empty mapping and the nightly job calls no
    API. *)
Theorem day_details_empty_with_a_row :
  let P := frozen_platform recap_utc in
  entries midnight_world = [mkEntry 1 1 7 (isoformat midnight_utc) "rice" 300] /\
  chats midnight_world = [7] /\
  in_day_window (@today P midnight_world) midnight_utc /\
  fst (@day_details P 7 midnight_world) = Ok [] /\
  outbox (snd (@send_chat_recap P 7 midnight_world)) = [] /\
  outbox (snd (@nightly_job P midnight_world)) = [].
Proof.
  cbv zeta. split; [reflexivity|]. split; [reflexivity|].
  split; [|repeat split].
  unfold in_day_window, dt_le, dt_lt. cbn. split; [discriminate | reflexivity].
Qed.

(* ================================================================== *)
(** * The parser of /add *)
(* ================================================================== *)

Section Parser.

Lemma blank_is_space c : is_blank c = true -> is_space c = true.
Proof.
  unfold is_blank. intros E. apply Ascii.eqb_eq in E. now subst c.
Qed.

Lemma rsplit1_none s : rsplit1 s = None <-> has_blank s = false.
Proof.
  induction s as [|c r IH]; simpl; [tauto|].
  destruct (rsplit1 r) as [[a b]|].
  - split; [discriminate|]. intros E. apply orb_false_iff in E as (_ & E).
    apply IH in E. discriminate.
  - destruct (is_blank c); simpl; split; try discriminate; try reflexivity.
    intros _. now apply IH.
Qed.

Lemma rsplit1_some s a b :
  rsplit1 s = Some (a, b) -> s = (a ++ " " ++ b)%string /\ has_blank b = false.
Proof.
  revert a. induction s as [|c r IH]; simpl; intros a; [discriminate|].
  destruct (rsplit1 r) as [[a0 b0]|] eqn:E.
  - intros [= <- <-]. destruct (IH a0 eq_refl) as (-> & Hb). now split.
  - destruct (is_blank c) eqn:B; [|discriminate].
    intros [= <- <-]. apply Ascii.eqb_eq in B. subst c.
    split; [reflexivity | now apply rsplit1_none].
Qed.

Lemma rsplit1_join a b :
  has_blank b = false -> rsplit1 (a ++ " " ++ b) = Some (a, b).
Proof.
  intros Hb. induction a as [|c a IH]; simpl.
  - apply rsplit1_none in Hb. now rewrite Hb.
  - change (rsplit1 (a ++ String " " b)) with (rsplit1 (a ++ " " ++ b)).
    now rewrite IH.
Qed.

(** X1. [rsplit1] is the split at the last space: a text without a
    space has no two parts; otherwise the parts are the unique [a] and
    [b] with [s = a + " " + b] and no space in [b]. *)
Theorem rsplit1_last_space (s : string) :
  (rsplit1 s = None <-> has_blank s = false) /\
  (forall a b, rsplit1 s = Some (a, b)
               <-> s = (a ++ " " ++ b)%string /\ has_blank b = false).
Proof.
  split; [apply rsplit1_none|].
  intros a b. split; [apply rsplit1_some|].
  intros (-> & Hb). now apply rsplit1_join.
Qed.

Lemma space_head_shorter s r :
  space_head s = Some r -> (String.length r < String.length s)%nat.
Proof.
  unfold space_head. destruct s as [|a [|b [|c r3]]]; try discriminate.
  - destruct (is_space a); [|discriminate]. intros [= <-]. cbn. lia.
  - destruct (is_space a); [intros [= <-]; cbn; lia|].
    destruct (is_space2 a b); [|discriminate]. intros [= <-]. cbn. lia.
  - destruct (is_space a); [intros [= <-]; cbn; lia|].
    destruct (is_space2 a b); [intros [= <-]; cbn; lia|].
    destruct (is_space3 a b c); [|discriminate]. intros [= <-]. cbn. lia.
Qed.

Lemma lstrip_unfold s :
  lstrip s = match space_head s with Some r => lstrip r | None => s end.
Proof.
  unfold space_head. destruct s as [|a [|b [|c r3]]]; cbn [lstrip];
    try reflexivity.
  - now destruct (is_space a).
  - destruct (is_space a); [reflexivity|]. now destruct (is_space2 a b).
  - destruct (is_space a); [reflexivity|].
    destruct (is_space2 a b); [reflexivity|]. now destruct (is_space3 a b c).
Qed.

(** A whitespace code point at the head of a text is at the head of
    every text that continues it. *)
Lemma space_head_app p r t :
  space_head p = Some r -> space_head (p ++ t) = Some (r ++ t)%string.
Proof.
  unfold space_head. destruct p as [|a [|b [|c r3]]]; cbn [String.append];
    try discriminate.
  - destruct (is_space a); [|discriminate]. now intros [= <-].
  - destruct (is_space a); [now intros [= <-]|].
    destruct (is_space2 a b); [|discriminate]. now intros [= <-].
  - destruct (is_space a); [now intros [= <-]|].
    destruct (is_space2 a b); [now intros [= <-]|].
    destruct (is_space3 a b c); [|discriminate]. now intros [= <-].
Qed.

Lemma starts_with_space_app p t :
  starts_with_space p = true -> starts_with_space (p ++ t) = true.
Proof.
  unfold starts_with_space. destruct (space_head p) as [r|] eqn:E;
    [|discriminate].
  intros _. now rewrite (space_head_app p r t E).
Qed.

Lemma lstrip_start s : starts_with_space (lstrip s) = false.
Proof.
  remember (String.length s) as n eqn:L.
  assert (String.length s <= n)%nat as B by lia. clear L.
  revert s B. induction n as [|n IH]; intros s B.
  - destruct s; [reflexivity | cbn in B; lia].
  - rewrite lstrip_unfold. destruct (space_head s) as [r|] eqn:E.
    + apply IH. apply space_head_shorter in E. lia.
    + unfold starts_with_space. now rewrite E.
Qed.

Lemma rstrip_end s : ends_with_space (rstrip s) = false.
Proof.
  induction s as [|c r IH]; [reflexivity|].
  cbn [rstrip]. cbv zeta.
  destruct (one_space (String c (rstrip r))) eqn:E; [reflexivity|].
  cbn [ends_with_space]. now rewrite E, IH.
Qed.

(** [rstrip] keeps a prefix of the text. *)
Lemma rstrip_prefix s : exists t, s = (rstrip s ++ t)%string.
Proof.
  induction s as [|c r (t & IH)]; [now exists ""|].
  cbn [rstrip]. cbv zeta.
  destruct (one_space (String c (rstrip r))).
  - now exists (String c r).
  - exists t. cbn [String.append]. now rewrite <- IH.
Qed.

Lemma rstrip_start s :
  starts_with_space s = false -> starts_with_space (rstrip s) = false.
Proof.
  intros E. destruct (starts_with_space (rstrip s)) eqn:R; [|reflexivity].
  destruct (rstrip_prefix s) as (t & P).
  apply (starts_with_space_app _ t) in R. rewrite <- P in R. congruence.
Qed.

Lemma strip_trimmed s : trimmed (strip s).
Proof.
  split; [apply rstrip_start, lstrip_start | apply rstrip_end].
Qed.

Lemma lstrip_fixed s : starts_with_space s = false -> lstrip s = s.
Proof.
  unfold starts_with_space. rewrite lstrip_unfold.
  now destruct (space_head s).
Qed.

Lemma rstrip_fixed s : ends_with_space s = false -> rstrip s = s.
Proof.
  induction s as [|c r IH]; [reflexivity|].
  cbn [ends_with_space rstrip]. cbv zeta.
  intros E. apply orb_false_iff in E as (E1 & E2).
  rewrite (IH E2). now rewrite E1.
Qed.

Lemma strip_fixed s : trimmed s -> strip s = s.
Proof.
  intros (A & B). unfold strip. rewrite (lstrip_fixed s A).
  now apply rstrip_fixed.
Qed.

(** [rstrip] leaves nothing only of a text of whitespace. *)
Lemma rstrip_empty s :
  rstrip s = "" -> s = "" \/ starts_with_space s = true.
Proof.
  destruct s as [|c r]; [now left|]. right.
  cbn [rstrip] in H. cbv zeta in H.
  destruct (one_space (String c (rstrip r))) eqn:E; [|discriminate].
  destruct (rstrip_prefix r) as (t & P).
  unfold one_space in E.
  destruct (space_head (String c (rstrip r))) as [x|] eqn:S; [|discriminate].
  rewrite P. change (String c (rstrip r ++ t)) with (String c (rstrip r) ++ t)%string.
  apply starts_with_space_app. unfold starts_with_space. now rewrite S.
Qed.

(** A text without whitespace at its head that splits has a first part
    of which [strip] leaves something. *)
Lemma rsplit1_first_part s a b :
  starts_with_space s = false -> rsplit1 s = Some (a, b) -> strip a <> "".
Proof.
  intros E R. apply rsplit1_some in R as (-> & _).
  assert (a <> "") as Na.
  { intros ->. cbn in E. discriminate. }
  assert (starts_with_space a = false) as Sa.
  { destruct (starts_with_space a) eqn:Sa; [|reflexivity].
    apply (starts_with_space_app _ (" " ++ b)) in Sa. congruence. }
  unfold strip. rewrite (lstrip_fixed a Sa). intros Z.
  apply rstrip_empty in Z as [Z|Z]; congruence.
Qed.

End Parser.

(* ================================================================== *)
(** * /add outside the quiet window *)
(* ================================================================== *)

Section AddCommand.
Context `{Platform}.

(** The world in which [cmd_add] looks at the text: the chat is
    registered and the clock was read once. *)
Lemma cmd_add_run msg w :
  cmd_add msg w
  = let w1 := set_tick (S (tick w))
                (set_chats (insert_chat (msg_chat msg) (chats w)) w) in
    if in_quiet_window (sgt_of_utc (clock (tick w)))
    then api_call (msg_chat msg) Scold w1
    else match parse_add (arg_line_of msg) with
         | None => api_call (msg_chat msg) Usage w1
         | Some (food_part, kcal) =>
             (add_entry (msg_from msg) (msg_chat msg) (strip food_part) kcal ;;;
              api_call (msg_chat msg)
                (Added (msg_from msg) (strip food_part) kcal)) w1
         end.
Proof.
  unfold cmd_add, bind at 1 2, register_chat, now_sgt, bind, read_clock, ret.
  cbn [tick set_chats]. cbv zeta. unfold arg_line_of, reply_to.
  destruct (in_quiet_window _); [reflexivity|].
  destruct (parse_add _) as [[fp k]|]; reflexivity.
Qed.

Lemma api_call_world cid p w :
  snd (api_call cid p w) = push_call (cid, p) w.
Proof. unfold api_call. now destruct (api_ok _). Qed.

Lemma api_call_result cid p w :
  fst (api_call cid p w)
  = if api_ok (List.length (outbox w)) then Ok tt else Raise ApiException.
Proof. unfold api_call. now destruct (api_ok _). Qed.

(** The reply follows the INSERT only when the INSERT went through. *)
Lemma add_then_call uid cid f k c p w :
  (add_entry uid cid f k ;;; api_call c p) w
  = if int64 k
    then api_call c p (snd (add_entry uid cid f k w))
    else (Raise OverflowError, set_tick (S (tick w)) w).
Proof. unfold bind. rewrite add_entry_cases. now destruct (int64 k). Qed.

(** X2. Outside the quiet window, a text whose argument line has no
    space, or whose last token [int()] refuses, gets the usage hint and
    nothing is written: the rows and the id counter stay as they were. *)
Theorem cmd_add_malformed_writes_nothing (msg : Message) (w : World) :
  in_quiet_window (sgt_of_utc (clock (tick w))) = false ->
  has_blank (arg_line_of msg) = false \/
  (exists food_part kcal_str,
     rsplit1 (arg_line_of msg) = Some (food_part, kcal_str) /\
     py_int kcal_str = None) ->
  entries (snd (cmd_add msg w)) = entries w /\
  seq (snd (cmd_add msg w)) = seq w /\
  outbox (snd (cmd_add msg w)) = outbox w ++ [(msg_chat msg, Usage)].
Proof.
  intros Hq Hbad. rewrite cmd_add_run. cbv zeta. rewrite Hq.
  assert (parse_add (arg_line_of msg) = None) as ->.
  { unfold parse_add. destruct Hbad as [Hb|(fp & ks & Hr & Hi)].
    - apply rsplit1_none in Hb. now rewrite Hb.
    - now rewrite Hr, Hi. }
  rewrite api_call_world. repeat split.
Qed.

(** X3. Outside the quiet window, a text that parses to a kcal that is
    an SQLite INTEGER appends exactly one row: it carries the sender,
    the chat, the stamp of the second clock reading, the stripped food
    and the parsed kcal, under a fresh id that becomes the counter.  The
    row is written whether or not the confirmation can be sent; the
    handler raises exactly when the sending does.  With a kcal outside
    the 64-bit range the INSERT raises [OverflowError]: no row is
    written, the counter stays and no reply is sent. *)
Theorem cmd_add_writes_one_row (msg : Message) (w : World)
    (food_part : string) (k : Z) :
  in_quiet_window (sgt_of_utc (clock (tick w))) = false ->
  parse_add (arg_line_of msg) = Some (food_part, k) ->
  (int64 k = true ->
   entries (snd (cmd_add msg w))
   = entries w ++ [mkEntry (fresh_id w) (msg_from msg) (msg_chat msg)
                           (isoformat (clock (S (tick w))))
                           (strip food_part) k] /\
   seq (snd (cmd_add msg w)) = fresh_id w /\
   outbox (snd (cmd_add msg w))
   = outbox w ++ [(msg_chat msg, Added (msg_from msg) (strip food_part) k)] /\
   fst (cmd_add msg w)
   = if api_ok (List.length (outbox w)) then Ok tt else Raise ApiException) /\
  (int64 k = false ->
   entries (snd (cmd_add msg w)) = entries w /\
   seq (snd (cmd_add msg w)) = seq w /\
   outbox (snd (cmd_add msg w)) = outbox w /\
   fst (cmd_add msg w) = Raise OverflowError).
Proof.
  intros Hq Hp. rewrite cmd_add_run. cbv zeta. rewrite Hq, Hp.
  rewrite add_then_call. split; intros Rk; rewrite Rk.
  - rewrite add_entry_run by exact Rk.
    rewrite api_call_world, api_call_result.
    cbn [snd entries seq outbox tick chats push_call set_entries set_tick
         set_chats].
    repeat split.
  - repeat split.
Qed.

(** X4. Whatever the text, the clock and the API do, a row that
    [cmd_add] adds has a food that is not empty and has no whitespace
    at either end, and belongs to the sender and the chat of the
    message; every other row is a row that was there. *)
Theorem cmd_add_food_is_trimmed (msg : Message) (w : World) (e : Entry) :
  In e (entries (snd (cmd_add msg w))) ->
  In e (entries w) \/
  (food e <> "" /\ trimmed (food e) /\
   user_id e = msg_from msg /\ chat_id e = msg_chat msg /\
   seq w < id e).
Proof.
  rewrite cmd_add_run. cbv zeta.
  destruct (in_quiet_window _).
  { rewrite api_call_world. cbn. now left. }
  destruct (parse_add (arg_line_of msg)) as [[fp k]|] eqn:Hp.
  2:{ rewrite api_call_world. cbn. now left. }
  rewrite add_then_call. destruct (int64 k) eqn:Rk.
  2:{ cbn. now left. }
  rewrite add_entry_run by exact Rk. rewrite api_call_world.
  cbn [snd entries push_call set_entries set_tick set_chats].
  intros I. apply in_app_or in I as [I|[<-|[]]]; [now left|]. right.
  cbn [food user_id chat_id id].
  unfold parse_add in Hp.
  destruct (rsplit1 (arg_line_of msg)) as [[fp' ks]|] eqn:Hr; [|discriminate].
  destruct (py_int ks); [|discriminate]. injection Hp as -> _.
  split; [exact (rsplit1_first_part _ _ _ (proj1 (strip_trimmed _)) Hr)|].
  split; [apply strip_trimmed|].
  repeat split. unfold fresh_id. cbn. lia.
Qed.

End AddCommand.

Lemma cmd_add_malformed_writes_nothing_witness :
  in_quiet_window (sgt_of_utc noon_utc) = false /\
  has_blank (arg_line_of (mkMessage 7 1 "/add 500")) = false /\
  entries (snd (@cmd_add (frozen_platform noon_utc)
                         (mkMessage 7 1 "/add 500") boundary_world))
  = entries boundary_world.
Proof.
  split; [reflexivity|]. split; [reflexivity|].
  apply (@cmd_add_malformed_writes_nothing (frozen_platform noon_utc)
           (mkMessage 7 1 "/add 500") boundary_world).
  - reflexivity.
  - left. reflexivity.
Defined.

Lemma cmd_add_writes_one_row_witness :
  in_quiet_window (sgt_of_utc noon_utc) = false /\
  @parse_add (frozen_platform noon_utc) (arg_line_of fish_message)
  = Some ("fish and chips", 500) /\
  int64 500 = true /\
  seq (snd (@cmd_add (offline_platform noon_utc) fish_message boundary_world))
  = fresh_id boundary_world.
Proof.
  split; [reflexivity|]. split; [vm_compute; reflexivity|].
  split; [reflexivity|].
  apply (proj1 (@cmd_add_writes_one_row (offline_platform noon_utc)
                  fish_message boundary_world "fish and chips" 500
                  eq_refl eq_refl)).
  reflexivity.
Defined.

Lemma cmd_add_food_is_trimmed_witness :
  let e := mkEntry 3 1 7 (isoformat noon_utc) "fish and chips" 500 in
  In e (entries (snd (@cmd_add (frozen_platform noon_utc)
                               (mkMessage 7 1 "/add   fish and chips  500")
                               boundary_world))) /\
  (In e (entries boundary_world) \/
   (food e <> "" /\ trimmed (food e) /\ user_id e = 1 /\ chat_id e = 7 /\
    seq boundary_world < id e)).
Proof.
  cbv zeta.
  assert (In (mkEntry 3 1 7 (isoformat noon_utc) "fish and chips" 500)
            (entries (snd (@cmd_add (frozen_platform noon_utc)
                             (mkMessage 7 1 "/add   fish and chips  500")
                             boundary_world)))) as I
    by (vm_compute; right; right; left; reflexivity).
  split; [exact I|].
  exact (@cmd_add_food_is_trimmed (frozen_platform noon_utc)
           (mkMessage 7 1 "/add   fish and chips  500") boundary_world _ I).
Defined.

(** Texts at the edges of the parser.  A no-break space after the kcal
    is whitespace to [strip]: the row is written.  A food that is a
    no-break space is stripped with the space that follows it, one token
    is left, and the usage hint is sent.  A kcal of 2^63 parses, and the
    INSERT raises before a row is written or a reply is sent. *)
Example add_with_trailing_nbsp :
  let P := frozen_platform noon_utc in
  arg_line_of tea_message = "tea 5" /\
  fst (@cmd_add P tea_message empty_world) = Ok tt /\
  entries (snd (@cmd_add P tea_message empty_world))
  = [mkEntry 1 1 7 (isoformat noon_utc) "tea" 5] /\
  outbox (snd (@cmd_add P tea_message empty_world)) = [(7, Added 1 "tea" 5)].
Proof. cbv zeta. repeat split; vm_compute; reflexivity. Qed.

Example add_of_a_blank_food :
  let P := frozen_platform noon_utc in
  arg_line_of blank_food_message = "5" /\
  fst (@cmd_add P blank_food_message empty_world) = Ok tt /\
  entries (snd (@cmd_add P blank_food_message empty_world)) = [] /\
  outbox (snd (@cmd_add P blank_food_message empty_world)) = [(7, Usage)].
Proof. cbv zeta. repeat split; vm_compute; reflexivity. Qed.

Example add_beyond_64_bits :
  let P := frozen_platform noon_utc in
  @parse_add P (arg_line_of huge_message) = Some ("tea", 2 ^ 63) /\
  fst (@cmd_add P huge_message empty_world) = Raise OverflowError /\
  entries (snd (@cmd_add P huge_message empty_world)) = [] /\
  seq (snd (@cmd_add P huge_message empty_world)) = 0 /\
  outbox (snd (@cmd_add P huge_message empty_world)) = [].
Proof. cbv zeta. repeat split; vm_compute; reflexivity. Qed.

(* ================================================================== *)
(** * The chat registry *)
(* ================================================================== *)

Section Registry.

Lemma insert_chat_sorted cid cs :
  StronglySorted Z.lt cs -> StronglySorted Z.lt (insert_chat cid cs).
Proof.
  induction 1 as [|c r S IH F]; simpl; [repeat constructor|].
  destruct (Z.eqb_spec cid c) as [E|N]; [now constructor|].
  destruct (Z.ltb_spec cid c) as [L|G].
  - constructor; [now constructor|].
    constructor; [exact L|].
    rewrite Forall_forall in *. intros x Hx. specialize (F x Hx). lia.
  - constructor; [exact IH|].
    rewrite Forall_forall in *. intros x Hx.
    apply In_insert_chat in Hx as [->|Hx]; [lia | now apply F].
Qed.

Lemma sorted_chats_NoDup cs : StronglySorted Z.lt cs -> NoDup cs.
Proof.
  induction 1 as [|c r S IH F]; constructor; [|exact IH].
  intros I. rewrite Forall_forall in F. specialize (F c I). lia.
Qed.

Lemma set_chats_same w : set_chats (chats w) w = w.
Proof. now destruct w. Qed.

(** X5. [register_chat] followed by [all_chat_ids]: the list returned
    has the registered chat and the chats that were known, and nothing
    else; it stays in ascending order without duplicates; registering a
    known chat leaves the world as it was. *)
Theorem register_chat_is_a_set_insert (cid : Z) (w : World) :
  StronglySorted Z.lt (chats w) ->
  exists cs,
    fst (all_chat_ids (snd (register_chat cid w))) = Ok cs /\
    (forall x, In x cs <-> x = cid \/ In x (chats w)) /\
    StronglySorted Z.lt cs /\ NoDup cs /\
    (In cid (chats w) -> snd (register_chat cid w) = w).
Proof.
  intros S. exists (insert_chat cid (chats w)).
  split; [reflexivity|].
  split; [intros x; apply In_insert_chat|].
  split; [now apply insert_chat_sorted|].
  split; [now apply sorted_chats_NoDup, insert_chat_sorted|].
  intros I. cbn. rewrite (insert_chat_known cid (chats w) S I).
  apply set_chats_same.
Qed.

End Registry.

Lemma register_chat_is_a_set_insert_witness :
  StronglySorted Z.lt (chats three_chat_world) /\
  exists cs,
    fst (all_chat_ids (snd (register_chat 8 three_chat_world))) = Ok cs /\
    (forall x, In x cs <-> x = 8 \/ In x (chats three_chat_world)) /\
    StronglySorted Z.lt cs /\ NoDup cs /\
    (In 8 (chats three_chat_world) ->
     snd (register_chat 8 three_chat_world) = three_chat_world).
Proof.
  assert (StronglySorted Z.lt (chats three_chat_world)) as S
    by (cbn; repeat constructor).
  split; [exact S|].
  exact (register_chat_is_a_set_insert 8 three_chat_world S).
Defined.

(* ================================================================== *)
(** * What each handler leaves behind *)
(* ================================================================== *)

Section Handlers.
Context `{Platform}.

Lemma todays_entries_listing uid cid w :
  todays_entries uid cid w = (Ok (listing uid cid w), set_tick (S (tick w)) w).
Proof. reflexivity. Qed.

Lemma cmd_remove_world msg w :
  let w1 := set_chats (insert_chat (msg_chat msg) (chats w)) w in
  snd (cmd_remove msg w)
  = push_call (msg_chat msg,
               match listing (msg_from msg) (msg_chat msg) w1 with
               | [] => NothingToRemove
               | _ :: _ =>
                   RemoveKeyboard (listing (msg_from msg) (msg_chat msg) w1)
               end)
              (set_tick (S (tick w)) w1).
Proof.
  cbv zeta. unfold cmd_remove, bind, register_chat.
  rewrite todays_entries_listing. unfold reply_to.
  destruct (listing _ _ _); now rewrite api_call_world.
Qed.

Lemma cmd_summary_world msg w :
  let w1 := set_chats (insert_chat (msg_chat msg) (chats w)) w in
  let rows := listing (msg_from msg) (msg_chat msg) w1 in
  snd (cmd_summary msg w)
  = match rows with
    | [] => push_call (msg_chat msg, NoEntriesYet) (set_tick (S (tick w)) w1)
    | _ :: _ =>
        push_call (msg_chat msg,
                   SummaryText (date_of (sgt_of_utc (clock (S (tick w)))))
                               (sum_rows rows)
                               (map (fun r => (snd (fst r), snd r)) rows))
                  (set_tick (S (S (tick w))) w1)
    end.
Proof.
  cbv zeta. unfold cmd_summary, bind at 1 2, register_chat.
  rewrite todays_entries_listing. unfold reply_to.
  destruct (listing _ _ _) as [|r rows]; [now rewrite api_call_world|].
  unfold bind, now_sgt, bind, read_clock, ret.
  cbn [tick set_tick set_chats]. now rewrite api_call_world.
Qed.

Lemma cmd_reset_world msg w :
  let w1 := set_chats (insert_chat (msg_chat msg) (chats w)) w in
  snd (cmd_reset msg w)
  = push_call (msg_chat msg, Cleared)
              (snd (reset_today (msg_from msg) (msg_chat msg) w1)).
Proof.
  cbv zeta. unfold cmd_reset, bind at 1 2, register_chat.
  rewrite reset_today_run. unfold reply_to. now rewrite api_call_world.
Qed.

Lemma cb_delete_cases cid data w :
  cb_delete cid data w
  = match after_first_colon data with
    | None => (Raise IndexError, w)
    | Some arg =>
        match py_int arg with
        | None => (Raise ValueError, w)
        | Some row_id =>
            if int64 row_id
            then (api_call cid EntryRemoved ;;; api_call cid Deleted)
                   (set_entries
                      (filter (fun e => negb (id e =? row_id)) (entries w))
                      (seq w) w)
            else (Raise OverflowError, w)
        end
    end.
Proof.
  unfold cb_delete, callback_row_id, bind at 1.
  destruct (after_first_colon data) as [arg|]; [|reflexivity].
  destruct (py_int arg) as [row_id|]; [|reflexivity].
  unfold raise, ret, bind at 1. rewrite delete_entry_cases.
  now destruct (int64 row_id).
Qed.

Lemma two_calls_world cid w :
  snd ((api_call cid EntryRemoved ;;; api_call cid Deleted) w)
  = if api_ok (List.length (outbox w))
    then push_call (cid, Deleted) (push_call (cid, EntryRemoved) w)
    else push_call (cid, EntryRemoved) w.
Proof.
  unfold bind, api_call at 1.
  destruct (api_ok (List.length (outbox w))); [|reflexivity].
  now rewrite api_call_world.
Qed.

Lemma fold_attempts_store cids : forall w,
  let w' := fold_left (fun v cid => snd (recap_attempt cid v)) cids w in
  entries w' = entries w /\ seq w' = seq w /\ chats w' = chats w.
Proof.
  induction cids as [|cid cids IH]; intros w; simpl; [now repeat split|].
  destruct (IH (snd (recap_attempt cid w))) as (E & S & C).
  destruct (recap_attempt_store cid w) as (E' & S' & C').
  repeat split; congruence.
Qed.

Lemma nightly_job_world w :
  snd (nightly_job w)
  = fold_left (fun v cid => snd (recap_attempt cid v)) (chats w) w.
Proof.
  unfold nightly_job, bind, all_chat_ids. now rewrite for_each_attempts.
Qed.

(** X6. Every command handler, and the passive handler, leaves the
    chat of its message registered, whatever else it does and whether
    or not its reply can be sent: the registry afterwards is the
    registry before with that chat inserted. *)
Theorem handlers_learn_the_chat (msg : Message) (w : World) :
  chats (snd (cmd_add msg w)) = insert_chat (msg_chat msg) (chats w) /\
  chats (snd (cmd_remove msg w)) = insert_chat (msg_chat msg) (chats w) /\
  chats (snd (cmd_summary msg w)) = insert_chat (msg_chat msg) (chats w) /\
  chats (snd (cmd_reset msg w)) = insert_chat (msg_chat msg) (chats w) /\
  chats (snd (seen_any msg w)) = insert_chat (msg_chat msg) (chats w).
Proof.
  split; [|split; [|split; [|split]]].
  - rewrite cmd_add_run. cbv zeta.
    destruct (in_quiet_window _); [now rewrite api_call_world|].
    destruct (parse_add _) as [[fp k]|]; [|now rewrite api_call_world].
    rewrite add_then_call, add_entry_cases.
    destruct (int64 k); [now rewrite api_call_world | reflexivity].
  - now rewrite cmd_remove_world.
  - rewrite cmd_summary_world. cbv zeta. now destruct (listing _ _ _).
  - rewrite cmd_reset_world. cbv zeta. now rewrite reset_today_run.
  - reflexivity.
Qed.

(** X7. The handlers that only show something, the passive handler and
    the nightly job never change a row or the id counter; the nightly
    job does not change the registry either. *)
Theorem read_only_operations (msg : Message) (w : World) :
  (entries (snd (cmd_remove msg w)) = entries w /\
   seq (snd (cmd_remove msg w)) = seq w) /\
  (entries (snd (cmd_summary msg w)) = entries w /\
   seq (snd (cmd_summary msg w)) = seq w) /\
  (entries (snd (seen_any msg w)) = entries w /\
   seq (snd (seen_any msg w)) = seq w) /\
  (entries (snd (nightly_job w)) = entries w /\
   seq (snd (nightly_job w)) = seq w /\
   chats (snd (nightly_job w)) = chats w).
Proof.
  split; [|split; [|split]].
  - rewrite cmd_remove_world. now split.
  - rewrite cmd_summary_world. cbv zeta. destruct (listing _ _ _); now split.
  - now split.
  - rewrite nightly_job_world. apply fold_attempts_store.
Qed.

(** What [cb_delete] leaves in the store. *)
Lemma cb_delete_store cid data w :
  entries (snd (cb_delete cid data w))
  = match callback_target data with
    | Some row_id => filter (fun e => negb (id e =? row_id)) (entries w)
    | None => entries w
    end /\
  seq (snd (cb_delete cid data w)) = seq w /\
  chats (snd (cb_delete cid data w)) = chats w /\
  tick (snd (cb_delete cid data w)) = tick w.
Proof.
  rewrite cb_delete_cases. unfold callback_target.
  destruct (after_first_colon data) as [arg|]; [|now repeat split].
  destruct (py_int arg) as [row_id|]; [|now repeat split].
  destruct (int64 row_id); [|now repeat split].
  rewrite two_calls_world. destruct (api_ok _); now repeat split.
Qed.

(** X8. [cb_delete] reads the row id from the callback data.  When the
    data has no colon, when [int] refuses what follows the colon, or
    when the integer is no SQLite INTEGER, the handler raises
    [IndexError], [ValueError] or [OverflowError] before it deletes
    anything or calls the API.  Otherwise it removes the rows with that
    id and no other, reads no clock and keeps the id counter, whether or
    not the two API calls succeed, and for an id that no row has the
    rows stay as they are; the first API call is then always made, the
    second only when the first did not raise. *)
Theorem cb_delete_removes_the_row (cid : Z) (data : string) (w : World) :
  (after_first_colon data = None ->
   cb_delete cid data w = (Raise IndexError, w)) /\
  (forall arg, after_first_colon data = Some arg -> py_int arg = None ->
   cb_delete cid data w = (Raise ValueError, w)) /\
  (forall arg row_id,
     after_first_colon data = Some arg -> py_int arg = Some row_id ->
     int64 row_id = false ->
     cb_delete cid data w = (Raise OverflowError, w)) /\
  (forall arg row_id,
     after_first_colon data = Some arg -> py_int arg = Some row_id ->
     int64 row_id = true ->
     entries (snd (cb_delete cid data w))
     = filter (fun e => negb (id e =? row_id)) (entries w) /\
     seq (snd (cb_delete cid data w)) = seq w /\
     tick (snd (cb_delete cid data w)) = tick w /\
     (~ In row_id (map id (entries w)) ->
      entries (snd (cb_delete cid data w)) = entries w) /\
     outbox (snd (cb_delete cid data w))
     = outbox w ++ (if api_ok (List.length (outbox w))
                    then [(cid, EntryRemoved); (cid, Deleted)]
                    else [(cid, EntryRemoved)])).
Proof.
  rewrite cb_delete_cases.
  split; [now intros ->|].
  split; [now intros arg -> ->|].
  split; [now intros arg row_id -> -> ->|].
  intros arg row_id -> -> ->. rewrite two_calls_world.
  assert (~ In row_id (map id (entries w)) ->
          filter (fun e => negb (id e =? row_id)) (entries w) = entries w) as A.
  { intros Habs. apply filter_all. intros e He.
    apply negb_true_iff, Z.eqb_neq. intros E. apply Habs.
    rewrite <- E. now apply in_map. }
  destruct (api_ok _); cbn; repeat split; try exact A;
    now rewrite <- ?app_assoc.
Qed.

End Handlers.

Lemma cb_delete_removes_the_row_witness :
  let P := offline_platform noon_utc in
  after_first_colon "del:2" = Some "2" /\
  @py_int P "2" = Some 2 /\ int64 2 = true /\
  entries (snd (@cb_delete P 7 "del:2" boundary_world))
  = filter (fun e => negb (id e =? 2)) (entries boundary_world) /\
  @cb_delete P 7 "del:abc" boundary_world = (Raise ValueError, boundary_world).
Proof.
  cbv zeta. split; [reflexivity|]. split; [reflexivity|].
  split; [reflexivity|]. split.
  - apply (proj2 (proj2 (proj2
             (@cb_delete_removes_the_row (offline_platform noon_utc)
                7 "del:2" boundary_world))) "2" 2); reflexivity.
  - apply (proj1 (proj2
             (@cb_delete_removes_the_row (offline_platform noon_utc)
                7 "del:abc" boundary_world)) "abc"); reflexivity.
Defined.

(* ================================================================== *)
(** * The shape of the store is kept *)
(* ================================================================== *)

Section StoreShape.
Context `{Platform}.

Lemma store_ok_ext w w' :
  entries w' = entries w -> seq w' = seq w -> chats w' = chats w ->
  store_ok w -> store_ok w'.
Proof.
  unfold store_ok, rows_in_id_order, ids_bounded.
  intros -> -> ->. exact (fun x => x).
Qed.

Lemma store_ok_register cid w :
  store_ok w -> store_ok (set_chats (insert_chat cid (chats w)) w).
Proof.
  intros (A & B & C). repeat split; try assumption.
  cbn. now apply insert_chat_sorted.
Qed.

Lemma store_ok_add uid cid f k w :
  store_ok w -> store_ok (snd (add_entry uid cid f k w)).
Proof.
  intros (A & B & C). split; [now apply add_entry_id_order|].
  rewrite add_entry_cases. destruct (int64 k); [|now split].
  split; [|exact C].
  unfold ids_bounded in *. cbn.
  apply Forall_app. split.
  - eapply Forall_impl; [|exact B]. cbn. intros e He. unfold fresh_id. lia.
  - repeat constructor. cbn. lia.
Qed.

Lemma store_ok_filter (p : Entry -> bool) w :
  store_ok w -> store_ok (set_entries (filter p (entries w)) (seq w) w).
Proof.
  intros (A & B & C). split; [|split; [|exact C]].
  - unfold rows_in_id_order. cbn. now apply StronglySorted_filter.
  - unfold ids_bounded in *. cbn. rewrite Forall_forall in *.
    intros e He. apply filter_In in He as (He & _). now apply B.
Qed.

(** X9. The store keeps its shape under every handler and under the
    nightly job: the ids of the rows stay strictly ascending, hence
    distinct, none is above the AUTOINCREMENT counter, and the chat ids
    stay strictly ascending. *)
Theorem handlers_keep_the_store_shape (msg : Message) (cid : Z)
    (data : string) (w : World) :
  store_ok w ->
  store_ok (snd (cmd_add msg w)) /\
  store_ok (snd (cmd_remove msg w)) /\
  store_ok (snd (cmd_summary msg w)) /\
  store_ok (snd (cmd_reset msg w)) /\
  store_ok (snd (cb_delete cid data w)) /\
  store_ok (snd (seen_any msg w)) /\
  store_ok (snd (nightly_job w)) /\
  NoDup (map id (entries w)).
Proof.
  intros Ok0.
  pose proof (store_ok_register (msg_chat msg) w Ok0) as Ok1.
  split; [|split; [|split; [|split; [|split; [|split; [|split]]]]]].
  - rewrite cmd_add_run. cbv zeta.
    destruct (in_quiet_window _);
      [rewrite api_call_world; revert Ok1; now apply store_ok_ext|].
    destruct (parse_add _) as [[fp k]|];
      [|rewrite api_call_world; revert Ok1; now apply store_ok_ext].
    rewrite add_then_call. destruct (int64 k);
      [|revert Ok1; now apply store_ok_ext].
    rewrite api_call_world.
    apply (store_ok_ext
             (snd (add_entry (msg_from msg) (msg_chat msg) (strip fp) k
                     (set_tick (S (tick w))
                        (set_chats (insert_chat (msg_chat msg) (chats w)) w)))));
      [reflexivity..|].
    apply store_ok_add. revert Ok1. now apply store_ok_ext.
  - rewrite cmd_remove_world. revert Ok1. now apply store_ok_ext.
  - rewrite cmd_summary_world. cbv zeta.
    destruct (listing _ _ _); revert Ok1; now apply store_ok_ext.
  - rewrite cmd_reset_world, reset_today_run. cbv zeta. cbn [snd].
    eapply store_ok_ext; [| | |eapply store_ok_filter, Ok1]; reflexivity.
  - destruct (cb_delete_store cid data w) as (E & S & C & _).
    destruct (callback_target data) as [row_id|].
    + apply (store_ok_ext
               (set_entries
                  (filter (fun e => negb (id e =? row_id)) (entries w))
                  (seq w) w)); [exact E|exact S|exact C|].
      now apply store_ok_filter.
    + revert Ok0. now apply store_ok_ext.
  - exact Ok1.
  - rewrite nightly_job_world.
    destruct (fold_attempts_store (chats w) w) as (E & S & C).
    revert Ok0. now apply store_ok_ext.
  - destruct Ok0 as (A & _). unfold rows_in_id_order in A.
    induction A as [|e es S IH F]; simpl; constructor; [|exact IH].
    intros I. apply in_map_iff in I as (e' & Eid & I).
    rewrite Forall_forall in F. specialize (F e' I). lia.
Qed.

End StoreShape.

Lemma handlers_keep_the_store_shape_witness :
  store_ok boundary_world /\
  store_ok (snd (@cmd_add (frozen_platform noon_utc) fish_message
                          boundary_world)).
Proof.
  assert (store_ok boundary_world) as S.
  { unfold store_ok, rows_in_id_order, ids_bounded. cbn.
    repeat split; repeat constructor; cbn; lia. }
  split; [exact S|].
  apply (@handlers_keep_the_store_shape (frozen_platform noon_utc)
           fish_message 7 "del:1" boundary_world S).
Defined.

(* ================================================================== *)
(** * Ids are not given twice *)
(* ================================================================== *)

Section IdsAreNew.
Context `{Platform}.

(** X10. An id is never given twice.  Let [i] be an id of the store, an
    SQLite INTEGER, that is not above the counter, as is every id that
    was ever given.  After the row [i] is deleted and a row is added,
    whether or not the INSERT goes through, no row has the id [i]: a
    new row has a larger id, and the counter only went up. *)
Theorem deleted_id_is_not_reused (i uid cid k : Z) (f : string) (w : World) :
  int64 i = true ->
  i <= seq w ->
  let w' := snd (add_entry uid cid f k (snd (delete_entry i w))) in
  (forall e, In e (entries w') -> id e <> i) /\
  i < fresh_id (snd (delete_entry i w)) /\
  seq w <= seq w'.
Proof.
  intros Ri Hi. cbv zeta.
  rewrite add_entry_cases, (delete_entry_run i w Ri).
  cbn [snd entries seq set_entries set_tick].
  assert (seq w < fresh_id (set_entries
            (filter (fun e => negb (id e =? i)) (entries w)) (seq w) w)) as F
    by (unfold fresh_id; cbn; lia).
  assert (forall e,
            In e (filter (fun e => negb (id e =? i)) (entries w)) ->
            id e <> i) as D.
  { intros e I. apply filter_In in I as (_ & N).
    now apply negb_true_iff, Z.eqb_neq in N. }
  destruct (int64 k); cbn [snd entries seq set_entries set_tick].
  - split; [|split; lia].
    intros e I. apply in_app_or in I as [I|[<-|[]]]; [now apply D|].
    cbn. lia.
  - split; [exact D|]. split; lia.
Qed.

End IdsAreNew.

Lemma deleted_id_is_not_reused_witness :
  int64 2 = true /\
  2 <= seq boundary_world /\
  forall e,
    In e (entries (snd (@add_entry (frozen_platform noon_utc) 1 7 "soup" 90
                          (snd (delete_entry 2 boundary_world))))) ->
    id e <> 2.
Proof.
  split; [reflexivity|]. split; [cbn; lia|].
  apply (@deleted_id_is_not_reused (frozen_platform noon_utc)
           2 1 7 90 "soup" boundary_world); [reflexivity|].
  cbn. lia.
Defined.

(* ================================================================== *)
(** * Listing after a deletion or a reset *)
(* ================================================================== *)

Section ListingAfter.
Context `{Platform}.

Lemma insert_by_id_filter (p : Z * string * Z -> bool) x l :
  StronglySorted (fun a b => fst (fst a) <= fst (fst b)) l ->
  filter p (insert_by_id x l)
  = if p x then insert_by_id x (filter p l) else filter p l.
Proof.
  induction 1 as [|y r S IH F]; simpl.
  - now destruct (p x).
  - destruct (Z.ltb_spec (fst (fst x)) (fst (fst y))) as [L|G]; simpl.
    + destruct (p x) eqn:Px, (p y) eqn:Py; simpl; rewrite ?Px, ?Py;
        try reflexivity.
      * destruct (Z.ltb_spec (fst (fst x)) (fst (fst y))); [reflexivity|lia].
      * symmetry. apply insert_by_id_below.
        apply Forall_forall. intros z Hz. apply filter_In in Hz as (Hz & _).
        rewrite Forall_forall in F. specialize (F z Hz). lia.
    + rewrite IH. destruct (p x) eqn:Px, (p y) eqn:Py; simpl; try reflexivity.
      destruct (Z.ltb_spec (fst (fst x)) (fst (fst y))); [lia|reflexivity].
Qed.

Lemma order_by_id_strongly_sorted l :
  StronglySorted (fun a b => fst (fst a) <= fst (fst b)) (order_by_id l).
Proof.
  apply Sorted_StronglySorted; [|apply order_by_id_sorted].
  intros a b c. lia.
Qed.

(** Filtering commutes with [ORDER BY id]. *)
Lemma order_by_id_filter (p : Z * string * Z -> bool) l :
  filter p (order_by_id l) = order_by_id (filter p l).
Proof.
  induction l as [|x r IH]; simpl; [reflexivity|].
  rewrite insert_by_id_filter by apply order_by_id_strongly_sorted.
  rewrite IH. now destruct (p x).
Qed.

Lemma filter_map_entry_row i es :
  filter (fun r => negb (fst (fst r) =? i)) (map entry_row es)
  = map entry_row (filter (fun e => negb (id e =? i)) es).
Proof.
  induction es as [|e es IH]; simpl; [reflexivity|].
  destruct (negb (id e =? i)); simpl; now rewrite IH.
Qed.

Lemma filter_comm {A} (p q : A -> bool) l :
  filter p (filter q l) = filter q (filter p l).
Proof.
  induction l as [|x l IH]; simpl; [reflexivity|].
  destruct (p x) eqn:Px, (q x) eqn:Qx; simpl; rewrite ?Px, ?Qx, IH;
    reflexivity.
Qed.

(** X11. Tapping a delete button: the listing of any user after
    [cb_delete] is the listing before without the row of the id that
    the callback data names, the other rows in the same order; the API
    outcome does not matter.  When the data names no id of the store
    (the handler raises) the listing is the listing before. *)
Theorem listing_after_cb_delete (uid cid c : Z) (data : string) (w : World) :
  fst (todays_entries uid cid (snd (cb_delete c data w)))
  = Ok (match callback_target data with
        | Some i =>
            filter (fun r => negb (fst (fst r) =? i)) (listing uid cid w)
        | None => listing uid cid w
        end) /\
  fst (todays_entries uid cid w) = Ok (listing uid cid w).
Proof.
  split; [|reflexivity].
  rewrite todays_entries_listing. cbn [fst]. f_equal.
  destruct (cb_delete_store c data w) as (E & _ & _ & T).
  unfold listing, today. rewrite E, T.
  destruct (callback_target data) as [i|]; [|reflexivity].
  rewrite order_by_id_filter, filter_map_entry_row. f_equal. f_equal.
  apply filter_comm.
Qed.

Lemma filter_none {A} (p : A -> bool) l :
  (forall x, In x l -> p x = false) -> filter p l = [].
Proof.
  induction l as [|x l IH]; simpl; intros F; [reflexivity|].
  rewrite (F x (or_introl eq_refl)). apply IH. auto.
Qed.

Lemma filter_keeps {A} (p q : A -> bool) l :
  (forall x, p x = true -> q x = true) -> filter p (filter q l) = filter p l.
Proof.
  intros I. induction l as [|x l IH]; simpl; [reflexivity|].
  destruct (q x) eqn:Qx; simpl.
  - destruct (p x); now rewrite IH.
  - destruct (p x) eqn:Px; [|exact IH].
    apply I in Px. congruence.
Qed.

(** X12. After [reset_today] of a user in a chat, a listing of that
    user in that chat whose clock reading falls on the same date of the
    zone is empty, and the listing of any other user or chat, at any
    reading, is what it would have been without the reset. *)
Theorem listing_after_reset (uid cid : Z) (w : World) :
  (forall n,
     date_of (sgt_of_utc (clock n)) = date_of (sgt_of_utc (clock (tick w))) ->
     fst (todays_entries uid cid (set_tick n (snd (reset_today uid cid w))))
     = Ok []) /\
  (forall uid' cid' n,
     uid' <> uid \/ cid' <> cid ->
     fst (todays_entries uid' cid' (set_tick n (snd (reset_today uid cid w))))
     = fst (todays_entries uid' cid' (set_tick n w))).
Proof.
  split.
  - intros n D. rewrite todays_entries_listing, reset_today_run. cbn [fst snd].
    unfold listing, today. cbn [tick entries set_tick set_entries].
    rewrite (day_window_by_date _ _ D).
    rewrite filter_none; [reflexivity|].
    intros e I. apply filter_In in I as (_ & N).
    now apply negb_true_iff in N.
  - intros uid' cid' n D.
    rewrite !todays_entries_listing, reset_today_run. cbn [fst snd].
    unfold listing, today. cbn [tick entries set_tick set_entries].
    rewrite filter_keeps; [reflexivity|].
    intros e M. apply negb_true_iff. unfold user_row_matches in *.
    apply andb_true_iff in M as (M & _). apply andb_true_iff in M as (U & C).
    apply Z.eqb_eq in U, C.
    destruct D as [D|D].
    + assert ((user_id e =? uid) = false) as -> by (apply Z.eqb_neq; congruence).
      reflexivity.
    + assert ((chat_id e =? cid) = false) as -> by (apply Z.eqb_neq; congruence).
      now rewrite andb_false_r.
Qed.

End ListingAfter.

Lemma listing_after_reset_witness :
  date_of (sgt_of_utc noon_utc) = date_of (sgt_of_utc noon_utc) /\
  fst (@todays_entries (frozen_platform noon_utc) 1 7
         (set_tick 5%nat (snd (@reset_today (frozen_platform noon_utc) 1 7
                             boundary_world))))
  = Ok [].
Proof.
  split; [reflexivity|].
  apply (proj1 (@listing_after_reset (frozen_platform noon_utc) 1 7
                  boundary_world) 5%nat).
  reflexivity.
Defined.

(* ================================================================== *)
(** * The summary and the recap agree *)
(* ================================================================== *)

Section SummaryAndRecap.
Context `{Platform}.

Lemma sum_rows_perm l l' : Permutation l l' -> sum_rows l = sum_rows l'.
Proof.
  induction 1 as [|x l l' P IH|x y l|l l' l'' P1 IH1 P2 IH2]; simpl;
    [reflexivity | now rewrite IH | lia | congruence].
Qed.

Lemma sum_rows_entry_rows es :
  sum_rows (map entry_row es) = fold_right (fun e acc => kcal e + acc) 0 es.
Proof. induction es as [|e es IH]; simpl; [reflexivity | now rewrite IH]. Qed.

Lemma sum_rows_chat_rows es :
  sum_rows (map chat_row es) = fold_right (fun e acc => kcal e + acc) 0 es.
Proof. induction es as [|e es IH]; simpl; [reflexivity | now rewrite IH]. Qed.

Lemma sum_kcal_items es :
  sum_kcal (map (fun e => (food e, kcal e)) es)
  = fold_right (fun e acc => kcal e + acc) 0 es.
Proof. induction es as [|e es IH]; simpl; [reflexivity | now rewrite IH]. Qed.

Lemma user_filter_split uid cid r es :
  filter (fun e => (user_id e =? uid) && chat_row_matches cid r e) es
  = filter (user_row_matches uid cid r) es.
Proof.
  apply filter_ext. intros e. unfold user_row_matches, chat_row_matches.
  now rewrite andb_assoc.
Qed.

Lemma breakdown_get uid cid w :
  dict_get (breakdown cid w) uid
  = nonempty_value
      (map (fun e => (food e, kcal e))
           (filter (user_row_matches uid cid (range_texts (today w)))
                   (entries w))).
Proof.
  unfold breakdown.
  now rewrite group_rows_get, items_of_chat_rows, user_filter_split.
Qed.

Lemma items_of_entry_rows es :
  map (fun r : Z * string * Z => (snd (fst r), snd r)) (map entry_row es)
  = map (fun e => (food e, kcal e)) es.
Proof. induction es as [|e es IH]; simpl; [reflexivity | now rewrite IH]. Qed.

(** X13. /summary and the recap agree.  For a listing and a breakdown
    taken at the same clock reading, the total of a user's listing is
    the subtotal of that user in the breakdown of the chat, and 0 when
    the user is not a key; and when the table is in id order the items
    of the listing are that user's items of the breakdown, in the same
    order. *)
Theorem summary_total_is_recap_subtotal (uid cid : Z) (w : World)
    (rows : list (Z * string * Z)) (det : dict) :
  fst (todays_entries uid cid w) = Ok rows ->
  fst (day_details cid w) = Ok det ->
  sum_rows rows
  = match dict_get det uid with
    | Some items => sum_kcal items
    | None => 0
    end /\
  (rows_in_id_order w ->
   dict_get det uid
   = nonempty_value (map (fun r => (snd (fst r), snd r)) rows)).
Proof.
  rewrite todays_entries_listing, day_details_run. cbn [fst].
  intros [= <-] [= <-]. rewrite breakdown_get. split.
  - unfold listing.
    rewrite <- (sum_rows_perm _ _ (order_by_id_perm _)), sum_rows_entry_rows.
    destruct (filter _ (entries w)) as [|e es] eqn:E; [reflexivity|].
    cbn [map nonempty_value]. now rewrite <- sum_kcal_items.
  - intros S. pose proof (todays_entries_scan uid cid w S) as L.
    rewrite todays_entries_listing in L. cbn [fst] in L.
    injection L as ->. now rewrite items_of_entry_rows.
Qed.

Lemma sum_kcal_snoc v item : sum_kcal (v ++ [item]) = sum_kcal v + snd item.
Proof. induction v as [|x v IH]; simpl; [lia | rewrite IH; lia]. Qed.

Lemma dict_total_setdefault out uid item :
  dict_total (setdefault_append out uid item) = dict_total out + snd item.
Proof.
  induction out as [|[k v] r IH]; simpl; [lia|].
  destruct (k =? uid); simpl; [rewrite sum_kcal_snoc | rewrite IH]; lia.
Qed.

Lemma items_count_setdefault out uid item :
  List.length (List.concat (map snd (setdefault_append out uid item)))
  = S (List.length (List.concat (map snd out))).
Proof.
  induction out as [|[k v] r IH]; simpl; [reflexivity|].
  destruct (k =? uid); simpl.
  - rewrite !length_app. simpl. lia.
  - rewrite !length_app, IH. lia.
Qed.

Lemma group_fold_totals rows : forall out,
  dict_total (fold_left group_step rows out)
  = dict_total out + sum_rows rows /\
  List.length (List.concat (map snd (fold_left group_step rows out)))
  = (List.length (List.concat (map snd out)) + List.length rows)%nat.
Proof.
  induction rows as [|r rows IH]; intros out; simpl; [split; lia|].
  destruct (IH (group_step out r)) as (T & C). rewrite T, C.
  unfold group_step. rewrite dict_total_setdefault, items_count_setdefault.
  cbn [snd]. split; lia.
Qed.

Lemma recap_lines_length d det :
  List.length (recap_lines d det)
  = (1 + List.length det + List.length (List.concat (map snd det)))%nat.
Proof.
  unfold recap_lines. simpl. f_equal.
  induction det as [|[k v] r IH]; simpl; [reflexivity|].
  rewrite !length_app, length_map, IH. lia.
Qed.

(** X14. The recap accounts for every selected row once.  The subtotals
    of the breakdown of a chat add up to the kcal of the rows that the
    query selects, and the recap has one header line, one line per user
    and one line per selected row. *)
Theorem recap_accounts_for_every_row (cid : Z) (w : World) (d : date) :
  let rows := filter (chat_row_matches cid (range_texts (today w)))
                     (entries w) in
  fst (day_details cid w) = Ok (breakdown cid w) /\
  dict_total (breakdown cid w)
  = fold_right (fun e acc => kcal e + acc) 0 rows /\
  List.length (recap_lines d (breakdown cid w))
  = (1 + List.length (breakdown cid w) + List.length rows)%nat.
Proof.
  cbv zeta. split; [reflexivity|].
  rewrite recap_lines_length. unfold breakdown, group_rows.
  destruct (group_fold_totals
              (map chat_row (filter (chat_row_matches cid (range_texts (today w)))
                                    (entries w))) []) as (T & C).
  rewrite T, C. cbn [dict_total fold_right List.concat map List.length].
  rewrite length_map. split; [|lia].
  rewrite Z.add_0_l. apply sum_rows_chat_rows.
Qed.

Lemma filter_and {A} (p q : A -> bool) l :
  filter (fun x => p x && q x) l = filter p (filter q l).
Proof.
  induction l as [|x l IH]; simpl; [reflexivity|].
  destruct (q x); simpl; [destruct (p x); now rewrite IH|].
  now rewrite andb_false_r.
Qed.

Lemma group_fold_key_order rows : forall out,
  map fst (fold_left group_step rows out)
  = map fst out ++
    filter (fun y => negb (existsb (Z.eqb y) (map fst out)))
           (first_occurrences (map (fun r => fst (fst r)) rows)).
Proof.
  induction rows as [|r rows IH]; intros out; simpl;
    [now rewrite app_nil_r|].
  rewrite IH. unfold group_step. rewrite keys_setdefault.
  set (u := fst (fst r)). set (ks := map fst out).
  set (fo := first_occurrences (map (fun r0 => fst (fst r0)) rows)).
  cbn [filter].
  destruct (existsb (Z.eqb u) ks) eqn:E; cbn [negb].
  - f_equal. symmetry. apply filter_keeps.
    intros y Hy. apply negb_true_iff, Z.eqb_neq. intros ->.
    rewrite E in Hy. discriminate.
  - rewrite <- app_assoc. f_equal. cbn [app]. f_equal.
    rewrite <- filter_and. apply filter_ext. intros y.
    rewrite existsb_app. cbn [existsb]. rewrite orb_false_r, negb_orb.
    reflexivity.
Qed.

(** X15. The users of a breakdown stand in the order in which their
    first selected row stands in the table: the keys of the dict are
    the distinct user ids of the selected rows, each at its first
    occurrence. *)
Theorem breakdown_key_order (cid : Z) (w : World) :
  fst (day_details cid w) = Ok (breakdown cid w) /\
  map fst (breakdown cid w)
  = first_occurrences
      (map user_id
           (filter (chat_row_matches cid (range_texts (today w)))
                   (entries w))).
Proof.
  split; [reflexivity|].
  unfold breakdown, group_rows. rewrite group_fold_key_order.
  cbn [map app existsb negb]. rewrite map_map. cbn [chat_row fst].
  rewrite filter_all; [reflexivity | reflexivity].
Qed.

End SummaryAndRecap.

Lemma summary_total_is_recap_subtotal_witness :
  let P := frozen_platform noon_utc in
  fst (@todays_entries P 1 7 boundary_world) = Ok [(2, "tea", 5)] /\
  fst (@day_details P 7 boundary_world) = Ok [(1, [("tea", 5)])] /\
  sum_rows [(2, "tea", 5)]
  = match dict_get [(1, [("tea", 5)])] 1 with
    | Some items => sum_kcal items
    | None => 0
    end.
Proof.
  cbv zeta. split; [reflexivity|]. split; [reflexivity|].
  apply (@summary_total_is_recap_subtotal (frozen_platform noon_utc)
           1 7 boundary_world [(2, "tea", 5)] [(1, [("tea", 5)])]);
    reflexivity.
Defined.

(* ================================================================== *)
(** * A reading and the window of its day *)
(* ================================================================== *)

Section OwnWindow.

Lemma prev_next_day d : valid_date d -> prev_day (next_day d) = d.
Proof.
  destruct d as [y m dd]. unfold valid_date, next_day, prev_day. simpl.
  intros (Hy & Hm & Hd).
  destruct (Z.ltb_spec dd (days_in_month y m)) as [L|G]; simpl.
  - destruct (Z.ltb_spec 1 (dd + 1)); [|lia]. f_equal. lia.
  - assert (dd = days_in_month y m) by lia. subst dd.
    destruct (Z.ltb_spec m 12) as [Mo|Mo]; simpl.
    + destruct (Z.ltb_spec 1 (m + 1)); [|lia].
      replace (m + 1 - 1) with m by lia. reflexivity.
    + assert (m = 12) by lia. subst m. cbn. f_equal. lia.
Qed.

Lemma prev_day_before d : valid_date d -> date_compare (prev_day d) d = Lt.
Proof.
  destruct d as [y m dd]. unfold valid_date, prev_day, date_compare. simpl.
  intros (Hy & Hm & Hd).
  destruct (Z.ltb_spec 1 dd); simpl.
  - rewrite !Z.compare_refl. simpl. apply Z.compare_lt_iff. lia.
  - destruct (Z.ltb_spec 1 m); simpl.
    + rewrite Z.compare_refl. simpl.
      assert ((m - 1 ?= m) = Lt) as -> by (apply Z.compare_lt_iff; lia).
      reflexivity.
    + assert ((y - 1 ?= y) = Lt) as -> by (apply Z.compare_lt_iff; lia).
      reflexivity.
Qed.

Lemma next_day_after d : valid_date d -> date_compare d (next_day d) = Lt.
Proof.
  destruct d as [y m dd]. unfold valid_date, next_day, date_compare. simpl.
  intros (Hy & Hm & Hd).
  destruct (Z.ltb_spec dd (days_in_month y m)); simpl.
  - rewrite !Z.compare_refl. simpl. apply Z.compare_lt_iff. lia.
  - destruct (Z.ltb_spec m 12); simpl.
    + rewrite Z.compare_refl. simpl.
      assert ((m ?= m + 1) = Lt) as -> by (apply Z.compare_lt_iff; lia).
      reflexivity.
    + assert ((y ?= y + 1) = Lt) as -> by (apply Z.compare_lt_iff; lia).
      reflexivity.
Qed.

Lemma dt_compare_by_date a b :
  date_compare (date_of a) (date_of b) = Lt -> dt_compare a b = Lt.
Proof.
  unfold date_compare, dt_compare, seconds_compare. simpl.
  destruct (year a ?= year b), (month a ?= month b), (day a ?= day b);
    simpl; intros E; try discriminate; reflexivity.
Qed.

Lemma dt_compare_same_date a b :
  date_of a = date_of b ->
  dt_compare a b
  = lex (hour a ?= hour b)
        (lex (minute a ?= minute b)
             (lex (second a ?= second b) (microsecond a ?= microsecond b))).
Proof.
  intros E. unfold date_of in E. injection E as E1 E2 E3.
  unfold dt_compare, seconds_compare.
  rewrite E1, E2, E3, !Z.compare_refl. simpl.
  destruct (hour a ?= hour b), (minute a ?= minute b),
    (second a ?= second b); reflexivity.
Qed.

Lemma dt_compare_refl a : dt_compare a a = Eq.
Proof.
  rewrite dt_compare_same_date by reflexivity.
  now rewrite !Z.compare_refl.
Qed.

(** The window of the day of a reading, by the hour of the reading. *)
Lemma own_window_early u :
  valid_reading u -> hour u < 16 ->
  day_window (sgt_of_utc u)
  = (combine (prev_day (date_of u)) 16 0 0 0, combine (date_of u) 16 0 0 0).
Proof.
  intros V Hh. rewrite day_window_shape by now apply valid_sgt_date.
  unfold sgt_of_utc, TZ_OFFSET.
  destruct (Z.ltb_spec (hour u + 8) 24); [|lia].
  now rewrite date_of_combine.
Qed.

Lemma own_window_late u :
  valid_reading u -> 16 <= hour u ->
  day_window (sgt_of_utc u)
  = (combine (date_of u) 16 0 0 0, combine (next_day (date_of u)) 16 0 0 0).
Proof.
  intros V Hh. rewrite day_window_shape by now apply valid_sgt_date.
  unfold sgt_of_utc, TZ_OFFSET.
  destruct (Z.ltb_spec (hour u + 8) 24); [lia|].
  rewrite date_of_combine, prev_next_day; [reflexivity|].
  apply V.
Qed.

Lemma midnight_compare u :
  0 <= minute u -> 0 <= second u -> 0 <= microsecond u -> 16 <= hour u ->
  lex (16 ?= hour u)
      (lex (0 ?= minute u) (lex (0 ?= second u) (0 ?= microsecond u))) <> Gt /\
  (lex (16 ?= hour u)
       (lex (0 ?= minute u) (lex (0 ?= second u) (0 ?= microsecond u))) = Eq
   <-> at_zone_midnight u).
Proof.
  intros Hm Hs Hu Hh. unfold at_zone_midnight.
  destruct (Z.compare_spec 16 (hour u)); cbn [lex]; try lia;
    [|split; [easy | split; [easy | intros (? & _); lia]]].
  destruct (Z.compare_spec 0 (minute u)); cbn [lex]; try lia;
    [|split; [easy | split; [easy | intros (_ & ? & _); lia]]].
  destruct (Z.compare_spec 0 (second u)); cbn [lex]; try lia;
    [|split; [easy | split; [easy | intros (_ & _ & ? & _); lia]]].
  destruct (Z.compare_spec 0 (microsecond u)); try lia;
    [|split; [easy | split; [easy | intros (_ & _ & _ & ?); lia]]].
  split; [easy | split; [intros _; lia | reflexivity]].
Qed.

Lemma own_window_membership (u : datetime) :
  valid_reading u ->
  in_day_window (day_window (sgt_of_utc u)) u /\
  (dt_compare (fst (day_window (sgt_of_utc u))) u = Eq
   <-> at_zone_midnight u).
Proof.
  intros V. pose proof V as ((Vd & Hh & Hm & Hs & Hu) & Hy).
  unfold in_day_window, dt_le, dt_lt.
  destruct (Z.lt_ge_cases (hour u) 16) as [E|L].
  - rewrite (own_window_early u V E). cbn [fst snd].
    assert (dt_compare (combine (prev_day (date_of u)) 16 0 0 0) u = Lt) as A.
    { apply dt_compare_by_date. rewrite date_of_combine.
      now apply prev_day_before. }
    rewrite A. split; [split; [discriminate|]|].
    + rewrite dt_compare_same_date by now rewrite date_of_combine.
      cbn [combine hour minute second microsecond].
      assert ((hour u ?= 16) = Lt) as -> by (apply Z.compare_lt_iff; lia).
      reflexivity.
    + unfold at_zone_midnight. split; [easy | intros (? & _); lia].
  - rewrite (own_window_late u V L). cbn [fst snd].
    rewrite (dt_compare_same_date (combine (date_of u) 16 0 0 0) u)
      by now rewrite date_of_combine.
    cbn [combine hour minute second microsecond].
    destruct (midnight_compare u) as (A & B); try lia.
    split; [split; [exact A|] | exact B].
    apply dt_compare_by_date. rewrite date_of_combine.
    now apply next_day_after.
Qed.

(** X16. A clock reading lies in the day window that [_today_range]
    computes from it: not before the start and before the end; and it
    is the start of the window exactly when it reads 00:00:00.000000 of
    the zone. *)
Theorem reading_in_its_day_window (u : datetime) :
  valid_reading u ->
  in_day_window (day_window (sgt_of_utc u)) u /\
  (dt_compare (fst (day_window (sgt_of_utc u))) u = Eq
   <-> at_zone_midnight u).
Proof. exact (own_window_membership u). Qed.

End OwnWindow.

Lemma valid_noon : valid_reading noon_utc.
Proof. unfold valid_reading, valid_dt, valid_date; cbn; lia. Qed.

Lemma reading_in_its_day_window_witness :
  valid_reading noon_utc /\
  in_day_window (day_window (sgt_of_utc noon_utc)) noon_utc.
Proof.
  split; [exact valid_noon|].
  apply (reading_in_its_day_window noon_utc). exact valid_noon.
Defined.

(* ================================================================== *)
(** * What BETWEEN selects *)
(* ================================================================== *)

Section Selection.
Context `{Platform}.

(** X17. The rows that the three queries select.  For a query made at
    a valid clock reading and a row stamped by [add_entry] at the
    instant [t], the predicate of [todays_entries] and [reset_today]
    holds exactly when the row is of the user and the chat and [t] is
    strictly after the start of the window and not after its end; the
    predicate of [day_details] is the same without the user. *)
Theorem queries_select_after_start_through_end
    (uid cid : Z) (u t : datetime) (e : Entry) :
  valid_reading u -> stamped_at e t ->
  (user_row_matches uid cid (range_texts (day_window (sgt_of_utc u))) e = true
   <-> user_id e = uid /\ chat_id e = cid /\
       dt_lt (fst (day_window (sgt_of_utc u))) t /\
       dt_le t (snd (day_window (sgt_of_utc u)))) /\
  (chat_row_matches cid (range_texts (day_window (sgt_of_utc u))) e = true
   <-> chat_id e = cid /\
       dt_lt (fst (day_window (sgt_of_utc u))) t /\
       dt_le t (snd (day_window (sgt_of_utc u)))).
Proof.
  intros V St. split.
  - apply user_row_matches_stamped; [now apply valid_sgt_date | exact St].
  - apply chat_row_matches_stamped; [now apply valid_sgt_date | exact St].
Qed.

(** X18. The stamps that [add_entry] writes sort, as TEXT, in the order
    of their instants, and two instants never share a stamp. *)
Theorem stamps_sort_as_instants (a b : datetime) :
  valid_dt a -> valid_dt b ->
  text_compare (isoformat a) (isoformat b) = dt_compare a b /\
  (isoformat a = isoformat b -> a = b).
Proof.
  intros Va Vb. split.
  - apply isoformat_compare; now apply valid_printable.
  - apply isoformat_inj; now apply valid_printable.
Qed.

(** X19. A row added at a valid clock reading, with a kcal that is an
    SQLite INTEGER, is listed for its user and chat by every listing
    whose clock reading falls on the same date of the zone, unless the
    row was stamped at 00:00:00.000000 of the zone: then no listing of
    that date shows it.  With a kcal outside the 64-bit range nothing
    was added and no listing shows such a row. *)
Theorem entry_listed_on_its_day (uid cid k : Z) (f : string) (w : World)
    (n : nat) :
  valid_reading (clock (tick w)) ->
  date_of (sgt_of_utc (clock n)) = date_of (sgt_of_utc (clock (tick w))) ->
  exists rows,
    fst (todays_entries uid cid (set_tick n (snd (add_entry uid cid f k w))))
    = Ok rows /\
    (In (fresh_id w, f, k) rows
     <-> int64 k = true /\ ~ at_zone_midnight (clock (tick w))).
Proof.
  intros V D. eexists. rewrite todays_entries_listing. cbn [fst].
  split; [reflexivity|].
  unfold listing, today. rewrite add_entry_cases.
  destruct (int64 k) eqn:Rk.
  2:{ cbn [snd tick entries set_tick].
      rewrite In_order_by_id, in_map_iff. split; [|now intros (? & _)].
      intros (e' & R & I). apply filter_In in I as (I & _).
      apply fresh_id_above in I. injection R as R _ _. lia. }
  revert V D.
  set (u := clock (tick w)) in *. intros V D.
  set (e := mkEntry (fresh_id w) uid cid (isoformat u) f k).
  assert (user_row_matches uid cid
            (range_texts (day_window (sgt_of_utc (clock n)))) e = true
          <-> ~ at_zone_midnight u) as M.
  { rewrite (day_window_by_date _ _ D).
    rewrite (user_row_matches_stamped uid cid (sgt_of_utc u) e u
               (valid_sgt_date u V) (conj (proj1 V) eq_refl)).
    destruct (own_window_membership u V) as ((A & B) & C).
    rewrite <- C. unfold dt_lt, dt_le in *.
    destruct (dt_compare (fst (day_window (sgt_of_utc u))) u);
      rewrite B; intuition congruence. }
  cbn [snd tick entries set_tick set_entries].
  fold e. rewrite In_order_by_id, in_map_iff, <- M. split.
  - intros (e' & R & I). apply filter_In in I as (I & Me').
    apply in_app_or in I as [I|[<-|[]]]; [|now split].
    apply fresh_id_above in I. injection R as R _ _. lia.
  - intros (_ & Me). exists e. split; [reflexivity|].
    apply filter_In. split; [|exact Me]. apply in_or_app. right. now left.
Qed.

End Selection.

Lemma queries_select_after_start_through_end_witness :
  let e := mkEntry 2 1 7 (isoformat early_utc) "tea" 5 in
  valid_reading noon_utc /\ stamped_at e early_utc /\
  (user_row_matches 1 7 (range_texts (day_window (sgt_of_utc noon_utc))) e
   = true
   <-> user_id e = 1 /\ chat_id e = 7 /\
       dt_lt (fst (day_window (sgt_of_utc noon_utc))) early_utc /\
       dt_le early_utc (snd (day_window (sgt_of_utc noon_utc)))).
Proof.
  cbv zeta.
  assert (stamped_at (mkEntry 2 1 7 (isoformat early_utc) "tea" 5) early_utc)
    as S by (split; [unfold valid_dt, valid_date; cbn; lia | reflexivity]).
  split; [exact valid_noon|]. split; [exact S|].
  apply (queries_select_after_start_through_end 1 7 noon_utc early_utc _
           valid_noon S).
Defined.

Lemma stamps_sort_as_instants_witness :
  valid_dt early_utc /\ valid_dt noon_utc /\
  text_compare (isoformat early_utc) (isoformat noon_utc)
  = dt_compare early_utc noon_utc.
Proof.
  assert (valid_dt early_utc) as A
    by (unfold valid_dt, valid_date; cbn; lia).
  split; [exact A|]. split; [apply valid_noon|].
  apply (stamps_sort_as_instants early_utc noon_utc A (proj1 valid_noon)).
Defined.

Lemma entry_listed_on_its_day_witness :
  let P := frozen_platform noon_utc in
  valid_reading (@clock P (tick boundary_world)) /\
  exists rows,
    fst (@todays_entries P 1 7
           (set_tick 4%nat (snd (@add_entry P 1 7 "soup" 90 boundary_world))))
    = Ok rows /\
    (In (fresh_id boundary_world, "soup", 90) rows
     <-> int64 90 = true /\
         ~ at_zone_midnight (@clock P (tick boundary_world))).
Proof.
  cbv zeta. split; [exact valid_noon|].
  apply (@entry_listed_on_its_day (frozen_platform noon_utc)
           1 7 90 "soup" boundary_world 4%nat).
  - exact valid_noon.
  - reflexivity.
Defined.

Lemma nightly_job_calls_witness :
  let P := offline_platform late_utc in
  (forall n, (tick three_chat_world <= n)%nat ->
     date_of (sgt_of_utc (@clock P n))
     = date_of (sgt_of_utc (@clock P (tick three_chat_world)))) /\
  exists calls,
    outbox (snd (@nightly_job P three_chat_world))
    = outbox three_chat_world ++ calls /\
    map fst calls
    = filter (fun cid => negb (is_nil (@breakdown P cid three_chat_world)))
             (chats three_chat_world).
Proof.
  cbv zeta. split; [reflexivity|].
  apply (@nightly_job_calls (offline_platform late_utc) three_chat_world).
  reflexivity.
Defined.

(* ================================================================== *)
(** * /remove, /reset and the zone *)
(* ================================================================== *)

Section RemoveAndReset.
Context `{Platform}.

Lemma sorted_ids_NoDup (rows : list (Z * string * Z)) :
  StronglySorted (fun a b => fst (fst a) < fst (fst b)) rows ->
  NoDup (map (fun r => fst (fst r)) rows).
Proof.
  induction 1 as [|r rows S IH F]; simpl; constructor; [|exact IH].
  intros I. apply in_map_iff in I as (r' & E & I).
  rewrite Forall_forall in F. specialize (F r' I). lia.
Qed.

(** X20. /remove answers with one button per row of the sender's
    listing, or with the "nothing to remove" text when the listing is
    empty.  When the store has its shape, no two buttons carry the same
    id, and every button shows a stored row of the sender in the chat
    of the message. *)
Theorem remove_keyboard_buttons (msg : Message) (w : World) :
  store_ok w ->
  let rows := listing (msg_from msg) (msg_chat msg) w in
  outbox (snd (cmd_remove msg w))
  = outbox w ++ [(msg_chat msg,
                  if is_nil rows then NothingToRemove
                  else RemoveKeyboard rows)] /\
  NoDup (map (fun r => fst (fst r)) rows) /\
  (forall r, In r rows ->
     exists e, In e (entries w) /\ entry_row e = r /\
               user_id e = msg_from msg /\ chat_id e = msg_chat msg).
Proof.
  intros (S & _ & _). cbv zeta. split; [|split].
  - rewrite cmd_remove_world. cbv zeta.
    change (listing (msg_from msg) (msg_chat msg)
              (set_chats (insert_chat (msg_chat msg) (chats w)) w))
      with (listing (msg_from msg) (msg_chat msg) w).
    now destruct (listing (msg_from msg) (msg_chat msg) w).
  - pose proof (todays_entries_scan (msg_from msg) (msg_chat msg) w S) as L.
    rewrite todays_entries_listing in L. cbn [fst] in L. injection L as ->.
    apply sorted_ids_NoDup, StronglySorted_map_entry_row.
    now apply StronglySorted_filter.
  - intros r I. unfold listing in I.
    apply In_order_by_id, in_map_iff in I as (e & R & I).
    apply filter_In in I as (I & M). exists e.
    unfold user_row_matches in M.
    apply andb_true_iff in M as (M & _). apply andb_true_iff in M as (U & C).
    apply Z.eqb_eq in U, C. auto.
Qed.

(** X21. /reset always answers "cleared", removes only rows of the
    sender in the chat of the message and adds none; and a second
    /reset whose clock reading falls on the same date of the zone
    removes nothing more. *)
Theorem cmd_reset_clears_only_the_sender (msg : Message) (w : World) :
  outbox (snd (cmd_reset msg w)) = outbox w ++ [(msg_chat msg, Cleared)] /\
  (forall e, In e (entries (snd (cmd_reset msg w))) -> In e (entries w)) /\
  (forall e, In e (entries w) ->
     user_id e <> msg_from msg \/ chat_id e <> msg_chat msg ->
     In e (entries (snd (cmd_reset msg w)))) /\
  (date_of (sgt_of_utc (clock (S (tick w))))
   = date_of (sgt_of_utc (clock (tick w))) ->
   entries (snd (cmd_reset msg (snd (cmd_reset msg w))))
   = entries (snd (cmd_reset msg w))).
Proof.
  split; [|split; [|split]].
  - now rewrite cmd_reset_world, reset_today_run.
  - rewrite cmd_reset_world, reset_today_run. cbn. intros e I.
    now apply filter_In in I.
  - rewrite cmd_reset_world. cbv zeta. cbn [entries push_call].
    intros e I D.
    apply (proj1 (proj2 (reset_today_rows (msg_from msg) (msg_chat msg)
             (set_chats (insert_chat (msg_chat msg) (chats w)) w)))); assumption.
  - intros D. rewrite !cmd_reset_world, !reset_today_run. cbv zeta.
    cbn [snd entries tick seq push_call set_entries set_tick set_chats].
    unfold today. cbn [tick set_tick set_chats push_call set_entries].
    rewrite (day_window_by_date _ _ D). apply filter_twice.
Qed.

End RemoveAndReset.

Lemma store_ok_boundary : store_ok boundary_world.
Proof.
  unfold store_ok, rows_in_id_order, ids_bounded. cbn.
  repeat split; repeat constructor; cbn; lia.
Qed.

Lemma remove_keyboard_buttons_witness :
  store_ok boundary_world /\
  outbox (snd (@cmd_remove (frozen_platform noon_utc) fish_message
                           boundary_world))
  = [(7, RemoveKeyboard [(2, "tea", 5)])].
Proof.
  split; [exact store_ok_boundary|].
  apply (@remove_keyboard_buttons (frozen_platform noon_utc) fish_message
           boundary_world store_ok_boundary).
Defined.

Lemma cmd_reset_clears_only_the_sender_witness :
  let P := frozen_platform noon_utc in
  date_of (sgt_of_utc (@clock P (S (tick boundary_world))))
  = date_of (sgt_of_utc (@clock P (tick boundary_world))) /\
  entries (snd (@cmd_reset P fish_message
                  (snd (@cmd_reset P fish_message boundary_world))))
  = entries (snd (@cmd_reset P fish_message boundary_world)).
Proof.
  cbv zeta. split; [reflexivity|].
  apply (@cmd_reset_clears_only_the_sender (frozen_platform noon_utc)
           fish_message boundary_world).
  reflexivity.
Defined.

Section Zone.

(** X22. The clock of the zone is eight hours ahead of UTC: for a clock
    reading [u], [now_sgt] shows a datetime whose hour is
    [(hour u + 8) mod 24], and [astimezone(UTC)] of it is [u] again. *)
Theorem zone_round_trip (u : datetime) :
  valid_reading u ->
  utc_of_sgt (sgt_of_utc u) = u /\
  hour (sgt_of_utc u) = (hour u + 8) mod 24 /\
  valid_dt (sgt_of_utc u).
Proof.
  intros V. pose proof V as ((Vd & Hh & Hm & Hs & Hu) & Hy).
  pose proof (valid_sgt_date u V) as Vs.
  unfold sgt_of_utc, utc_of_sgt, TZ_OFFSET in *.
  destruct (Z.ltb_spec (hour u + 8) 24) as [L|G].
  - cbn [hour minute second microsecond combine] in *.
    destruct (Z.leb_spec 8 (hour u + 8)); [|lia].
    rewrite date_of_combine. split; [|split].
    + replace (hour u + 8 - 8) with (hour u) by lia. now destruct u.
    + symmetry. apply Z.mod_small. lia.
    + split; [exact Vs|]. cbn [hour minute second microsecond combine]. lia.
  - cbn [hour minute second microsecond combine] in *.
    destruct (Z.leb_spec 8 (hour u + 8 - 24)); [lia|].
    rewrite date_of_combine, prev_next_day by exact Vd. split; [|split].
    + replace (hour u + 8 - 24 + 24 - 8) with (hour u) by lia. now destruct u.
    + apply (Z.mod_unique _ _ 1); lia.
    + split; [exact Vs|]. cbn [hour minute second microsecond combine]. lia.
Qed.

End Zone.

Lemma zone_round_trip_witness :
  valid_reading noon_utc /\ utc_of_sgt (sgt_of_utc noon_utc) = noon_utc.
Proof.
  split; [exact valid_noon|].
  apply (zone_round_trip noon_utc). exact valid_noon.
Defined.
